(** * The OSM import pipeline of [scripts/import_osm_and_census_data.py]

    A shallow embedding of the extraction, reclamation, segment synthesis,
    bulk loading and nearest-city aggregation code, and the properties of it
    that the specification states.

    Conventions of the embedding:
    - a Python [str] is a [string]; its characters are the code points
      below 256;
    - a Python [int] is a [Z];
    - a Python [float] (and a PostgreSQL [double precision]) is a binary64
      number, a [spec_float] computed with precision 53 and [emax] 1024;
    - a Python [dict] is a [gmap], a [set] a [gset], a [list] a [list];
    - code that may raise returns a [result]. *)

From Stdlib Require Import ZArith List String Ascii Lia.
From Stdlib Require Import Floats.SpecFloat.
From stdpp Require Import gmap strings list fin_maps pretty.

Open Scope Z_scope.

(** ** Exceptions *)

Inductive exn : Type :=
  | ValueError
  | IndexError
  | OverflowError
  | ZeroDivisionError
  | DatabaseError.

Inductive result (A : Type) : Type :=
  | Ok (a : A)
  | Raise (e : exn).
Arguments Ok {A} a.
Arguments Raise {A} e.

#[global] Instance result_ret : MRet result := fun A a => Ok a.
#[global] Instance result_bind : MBind result := fun A B k r =>
  match r with
  | Ok a => k a
  | Raise e => Raise e
  end.

(** ** Python strings *)

Definition tab : ascii := "009"%char.
Definition newline : ascii := "010"%char.
Definition backslash : ascii := "\"%char.
Definition space : ascii := " "%char.

Definition str1 (c : ascii) : string := String c EmptyString.

(** [s.replace(old, new)]: the occurrences of [old] are found from left to
    right and do not overlap.  [replace_from] carries the number of
    characters of a match that are still to be dropped. *)
Fixpoint replace_from (old new : string) (skip : nat) (s : string) : string :=
  match s with
  | EmptyString => EmptyString
  | String c s' =>
      match skip with
      | S k => replace_from old new k s'
      | O =>
          if String.prefix old s
          then String.append new (replace_from old new (String.length old - 1) s')
          else String c (replace_from old new 0 s')
      end
  end.

(** With an empty [old], Python puts [new] before every character and at
    the end. *)
Fixpoint interleave (new s : string) : string :=
  match s with
  | EmptyString => new
  | String c s' => String.append new (String c (interleave new s'))
  end.

Definition replace (old new s : string) : string :=
  match old with
  | EmptyString => interleave new s
  | String _ _ => replace_from old new 0 s
  end.

(** Replacing a single character, as a map over the characters. *)
Fixpoint subst_char (a : ascii) (new : string) (s : string) : string :=
  match s with
  | EmptyString => EmptyString
  | String c s' =>
      if Ascii.eqb a c then String.append new (subst_char a new s')
      else String c (subst_char a new s')
  end.

(** ** Python floats and integers *)

Abbreviation float := spec_float.

Definition fadd : float -> float -> float := SFadd 53 1024.
Definition fsub : float -> float -> float := SFsub 53 1024.
Definition fmul : float -> float -> float := SFmul 53 1024.
Definition fdiv : float -> float -> float := SFdiv 53 1024.
Definition fsqrt : float -> float := SFsqrt 53 1024.

(** The float nearest to an integer (ties to even); infinite when the
    integer is out of range. *)
Definition float_of_Z (n : Z) : float := binary_normalize 53 1024 n 0 false.

(** The conversion of an [int] operand of a float operation. *)
Definition float_of_int (n : Z) : result float :=
  match float_of_Z n with
  | S754_infinity _ => Raise OverflowError
  | f => Ok f
  end.

Definition is_zero (f : float) : bool :=
  match f with
  | S754_zero _ => true
  | _ => false
  end.

(** [x / n] for a float [x] and an int [n] *)
Definition truediv_int (x : float) (n : Z) : result float :=
  d ← float_of_int n;
  if is_zero d then Raise ZeroDivisionError else Ok (fdiv x d).

(** [x * n] for a float [x] and an int [n] *)
Definition mul_int (x : float) (n : Z) : result float :=
  d ← float_of_int n; Ok (fmul x d).

(** [int(x)] for a float [x]: truncation towards zero. *)
Definition int_of_float (x : float) : result Z :=
  match x with
  | S754_zero _ => Ok 0
  | S754_infinity _ => Raise OverflowError
  | S754_nan => Raise ValueError
  | S754_finite s m e => Ok (cond_Zopp s (Z.shiftl (Zpos m) e))
  end.

(** *** [str.strip] and [str.split] *)

(** [c.isspace()] for the code points below 256. *)
Definition is_space (c : ascii) : bool :=
  let n := Z.of_nat (nat_of_ascii c) in
  ((9 <=? n) && (n <=? 13)) || ((28 <=? n) && (n <=? 32))
  || (n =? 133) || (n =? 160).

Fixpoint lstrip (s : string) : string :=
  match s with
  | EmptyString => EmptyString
  | String c s' => if is_space c then lstrip s' else s
  end.

Fixpoint rstrip (s : string) : string :=
  match s with
  | EmptyString => EmptyString
  | String c s' =>
      match rstrip s' with
      | EmptyString => if is_space c then EmptyString else str1 c
      | r => String c r
      end
  end.

Definition strip (s : string) : string := rstrip (lstrip s).

(** [s.split()]: the maximal runs of characters that are not white space. *)
Fixpoint split (s : string) : list string :=
  match s with
  | EmptyString => []
  | String c s' =>
      if is_space c then split s'
      else
        match s' with
        | EmptyString => [str1 c]
        | String d _ =>
            if is_space d then str1 c :: split s'
            else
              match split s' with
              | w :: ws => String c w :: ws
              | [] => [str1 c]
              end
        end
  end.

(** [l[0]] *)
Definition item0 {A : Type} (l : list A) : result A :=
  match l with
  | x :: _ => Ok x
  | [] => Raise IndexError
  end.

(** *** [float(s)] for a string [s] *)

Definition digit_val (c : ascii) : option Z :=
  let n := Z.of_nat (nat_of_ascii c) in
  if (48 <=? n) && (n <=? 57) then Some (n - 48) else None.

(** A run of digits in which single underscores may stand between two
    digits; the digits read and the rest of the string. *)
Fixpoint digitpart (after_digit : bool) (s : string) : list Z * string :=
  match s with
  | EmptyString => ([], EmptyString)
  | String c s' =>
      match digit_val c with
      | Some d => let '(ds, r) := digitpart true s' in (d :: ds, r)
      | None =>
          if after_digit && Ascii.eqb c "_" then
            match s' with
            | String c2 _ =>
                match digit_val c2 with
                | Some _ => digitpart false s'
                | None => ([], s)
                end
            | EmptyString => ([], s)
            end
          else ([], s)
      end
  end.

Definition Z_of_digits (ds : list Z) : Z :=
  fold_left (fun acc d => 10 * acc + d) ds 0.

(** The float nearest to [m * 10^e] (ties to even), for [0 <= m], with the
    sign [neg]. *)
Definition float_of_decimal (neg : bool) (m e : Z) : float :=
  if m =? 0 then S754_zero neg
  else if 0 <=? e then
    binary_normalize 53 1024 (cond_Zopp neg (m * 10 ^ e)) 0 neg
  else
    let '(q, e', l) := SFdiv_core_binary 53 1024 m 0 (10 ^ (- e)) 0 in
    binary_round_aux 53 1024 neg q e' l.

Definition lower (c : ascii) : ascii :=
  let n := nat_of_ascii c in
  if (65 <=? n)%nat && (n <=? 90)%nat then ascii_of_nat (n + 32) else c.

Fixpoint lower_str (s : string) : string :=
  match s with
  | EmptyString => EmptyString
  | String c s' => String (lower c) (lower_str s')
  end.

(** The exponent part: [e] or [E], an optional sign, a digit part; nothing
    may follow. *)
Definition exponent (s : string) : option Z :=
  match s with
  | EmptyString => Some 0
  | String c s' =>
      if Ascii.eqb (lower c) "e" then
        let '(neg, s'') :=
          match s' with
          | String "+" t => (false, t)
          | String "-" t => (true, t)
          | _ => (false, s')
          end in
        match digitpart false s'' with
        | (d :: ds, EmptyString) => Some (cond_Zopp neg (Z_of_digits (d :: ds)))
        | _ => None
        end
      else None
  end.

(** A decimal literal: digits, an optional point and digits, an optional
    exponent, with a digit before or after the point. *)
Definition decimal_literal (neg : bool) (s : string) : option float :=
  let '(ip, r) := digitpart false s in
  let '(fp, r') :=
    match r with
    | String "." t => digitpart false t
    | _ => ([], r)
    end in
  match ip ++ fp with
  | [] => None
  | ds =>
      match exponent r' with
      | Some x =>
          Some (float_of_decimal neg (Z_of_digits ds)
                  (x - Z.of_nat (length fp)))
      | None => None
      end
  end.

(** [float(s)]: white space around the literal is dropped; a sign may be
    followed by [inf], [infinity] or [nan] in any case, or by a decimal
    literal.  Anything else is a [ValueError]. *)
Definition float_of_str (s : string) : result float :=
  let t := strip s in
  let '(neg, u) :=
    match t with
    | String "+" u => (false, u)
    | String "-" u => (true, u)
    | _ => (false, t)
    end in
  let l := lower_str u in
  if String.eqb l "inf" || String.eqb l "infinity" then Ok (S754_infinity neg)
  else if String.eqb l "nan" then Ok S754_nan
  else
    match decimal_literal neg u with
    | Some f => Ok f
    | None => Raise ValueError
    end.

(** ** Values of a row handed to the bulk loader *)

Inductive value : Type :=
  | VNone
  | VStr (s : string)
  | VInt (n : Z)
  | VFloat (f : float).

(** ** The runtime

    The functions of the C math library behind Python's [math] module and
    the printing of floats are not defined here; the embedding takes them as
    given.  They are total: the domain errors of [math.sqrt], [math.sin] and
    [math.cos] are outside the model. *)

Record runtime : Type := {
  math_sin : float -> float;
  math_cos : float -> float;
  math_atan2 : float -> float -> float;
  math_pow : float -> float -> float;
  float_repr : float -> string
}.

Section Escape.

Variable rt : runtime.

(** [str(v)] *)
Definition py_str (v : value) : string :=
  match v with
  | VNone => "None"
  | VStr s => s
  | VInt n => pretty n
  | VFloat f => float_repr rt f
  end.

(** [escape_tsv(v)] *)
Definition escape_tsv (v : value) : string :=
  match v with
  | VNone => "\N"
  | _ =>
      let s := py_str v in
      replace (str1 newline) " "
        (replace (str1 tab) " "
           (replace (str1 backslash) "\\" s))
  end.

End Escape.

(** What escaping does to one character. *)
Definition escape_char (c : ascii) : string :=
  if Ascii.eqb backslash c then "\\"
  else if Ascii.eqb tab c then " "
  else if Ascii.eqb newline c then " "
  else str1 c.

Fixpoint concat_map (f : ascii -> string) (s : string) : string :=
  match s with
  | EmptyString => EmptyString
  | String c s' => String.append (f c) (concat_map f s')
  end.

Fixpoint occurs (c : ascii) (s : string) : bool :=
  match s with
  | EmptyString => false
  | String d s' => Ascii.eqb c d || occurs c s'
  end.

(** ** Configuration *)

Definition HIGHWAY_TYPES : gset string :=
  {[ "motorway"; "motorway_link"; "trunk"; "trunk_link";
     "primary"; "primary_link"; "secondary"; "secondary_link" ]}.

Definition DEFAULT_SPEEDS : gmap string Z :=
  <["motorway" := 70]> (<["motorway_link" := 50]> (
  <["trunk" := 65]> (<["trunk_link" := 45]> (
  <["primary" := 55]> (<["primary_link" := 35]> (
  <["secondary" := 45]> (<["secondary_link" := 30]> ∅))))))).

Definition TOURISM_TYPES : gset string :=
  {[ "museum"; "attraction"; "viewpoint"; "artwork";
     "gallery"; "theme_park"; "zoo"; "aquarium";
     "hotel"; "motel"; "hostel"; "guest_house";
     "camp_site"; "caravan_site"; "picnic_site";
     "information"; "yes" ]}.

(** ** The entities of the map file and the handler *)

Record osm_node : Type := {
  n_id : Z;
  n_lat : float;
  n_lon : float;
  n_tags : gmap string string
}.

Record osm_way : Type := {
  w_id : Z;
  w_nodes : list Z;
  w_tags : gmap string string
}.

Inductive entity : Type :=
  | Node (n : osm_node)
  | Way (w : osm_way).

(** An element of [handler.ways]:
    [(osm_id, node_ids, highway, name, oneway, maxspeed)]. *)
Record way_tuple : Type := {
  way_id : Z;
  node_ids : list Z;
  highway : string;
  name : string;
  oneway : bool;
  maxspeed_str : string
}.

(** An element of [handler.tourist_attractions]:
    [(osm_id, name, type, lat, lon)]. *)
Record attraction : Type := {
  att_id : Z;
  att_name : string;
  att_type : string;
  att_lat : float;
  att_lon : float
}.

Record OSMHandler : Type := {
  node_coords : gmap Z (float * float);
  ways : list way_tuple;
  tourist_attractions : list attraction;
  road_node_ids : gset Z;
  node_count : Z
}.

(** [OSMHandler.__init__] *)
Definition init : OSMHandler := {|
  node_coords := ∅;
  ways := [];
  tourist_attractions := [];
  road_node_ids := ∅;
  node_count := 0
|}.

(** [OSMHandler.node] *)
Definition node (h : OSMHandler) (n : osm_node) : OSMHandler :=
  let attractions :=
    match n_tags n !! "tourism" with
    | Some tourism =>
        if decide (tourism ∈ TOURISM_TYPES) then
          let name :=
            default (String.append "Unnamed " tourism) (n_tags n !! "name") in
          tourist_attractions h ++
            [{| att_id := n_id n; att_name := name; att_type := tourism;
                att_lat := n_lat n; att_lon := n_lon n |}]
        else tourist_attractions h
    | None => tourist_attractions h
    end in
  {| node_coords := <[n_id n := (n_lat n, n_lon n)]> (node_coords h);
     ways := ways h;
     tourist_attractions := attractions;
     road_node_ids := road_node_ids h;
     node_count := node_count h + 1 |}.

(** [OSMHandler.way] *)
Definition way (h : OSMHandler) (w : osm_way) : OSMHandler :=
  match w_tags w !! "highway" with
  | Some hw =>
      if decide (hw ∈ HIGHWAY_TYPES) then
        let ids := w_nodes w in
        {| node_coords := node_coords h;
           ways := ways h ++
             [{| way_id := w_id w;
                 node_ids := ids;
                 highway := hw;
                 name := default "" (w_tags w !! "name");
                 oneway :=
                   String.eqb (default "no" (w_tags w !! "oneway")) "yes";
                 maxspeed_str := default "" (w_tags w !! "maxspeed") |}];
           tourist_attractions := tourist_attractions h;
           road_node_ids := road_node_ids h ∪ list_to_set ids;
           node_count := node_count h |}
      else h
  | None => h
  end.

Definition handle (h : OSMHandler) (e : entity) : OSMHandler :=
  match e with
  | Node n => node h n
  | Way w => way h w
  end.

(** [handler.apply_file(...)]: one pass over the entities of the file, in
    the order of the file. *)
Definition apply_file (h : OSMHandler) (file : list entity) : OSMHandler :=
  fold_left handle file h.

(** The reclamation step of [main]:
    [{k: v for k, v in node_coords.items() if k in needed_nodes}]. *)
Definition reclaim (h : OSMHandler) : OSMHandler :=
  let needed_nodes := road_node_ids h in
  {| node_coords :=
       filter (fun kv : Z * (float * float) => kv.1 ∈ needed_nodes)
              (node_coords h);
     ways := ways h;
     tourist_attractions := tourist_attractions h;
     road_node_ids := road_node_ids h;
     node_count := node_count h |}.

(** The handler [main] passes on: extraction, then reclamation. *)
Definition extract (file : list entity) : OSMHandler :=
  reclaim (apply_file init file).

(** ** The bulk loader *)

(** What a cursor has been asked to do: the [COPY] commands sent through
    [cur.copy_from(buffer, table, columns=..., null=...)], oldest first. *)
Record copy_command : Type := {
  copy_table : string;
  copy_columns : list string;
  copy_null : string;
  copy_data : string
}.

Abbreviation cursor := (list copy_command).

Section Loader.

Variable rt : runtime.

(** The verdict of the server on a command, given the commands before it;
    a refused command raises [psycopg2.Error]. *)
Variable server_accepts : cursor -> copy_command -> bool.

(** [cur.copy_from(buffer, table, columns=columns, null='\\N')] *)
Definition copy_from (cur : cursor) (buffer table : string)
    (columns : list string) : result cursor :=
  let cmd := {| copy_table := table; copy_columns := columns;
                copy_null := "\N"; copy_data := buffer |} in
  if server_accepts cur cmd then Ok (cur ++ [cmd]) else Raise DatabaseError.

(** One line of the buffer: ['\t'.join(escape_tsv(v) for v in row) + '\n'] *)
Definition tsv_line (row : list value) : string :=
  String.append (String.concat (str1 tab) (map (escape_tsv rt) row))
                (str1 newline).

(** [copy_to_table(cur, table, columns, data)]: the value returned and the
    cursor afterwards. *)
Definition copy_to_table (cur : cursor) (table : string)
    (columns : list string) (data : list (list value))
    : result (Z * cursor) :=
  match data with
  | [] => Ok (0, cur)
  | _ :: _ =>
      let buffer := String.concat "" (map tsv_line data) in
      cur' ← copy_from cur buffer table columns;
      Ok (Z.of_nat (length data), cur')
  end.

End Loader.

(** ** Geometry *)

Definition pi : float := float_of_decimal false 3141592653589793 (-15).

(** [math.radians(x)] *)
Definition radians (x : float) : float :=
  fmul x (fdiv pi (float_of_Z 180)).

Section Segments.

Variable rt : runtime.

(** [haversine_distance(lat1, lon1, lat2, lon2)] *)
Definition haversine_distance (lat1 lon1 lat2 lon2 : float) : float :=
  let earth_radius_miles := float_of_decimal false 39588 (-1) in
  let two := float_of_Z 2 in
  let dlat := radians (fsub lat2 lat1) in
  let dlon := radians (fsub lon2 lon1) in
  let a :=
    fadd (math_pow rt (math_sin rt (fdiv dlat two)) two)
         (fmul (fmul (math_cos rt (radians lat1)) (math_cos rt (radians lat2)))
               (math_pow rt (math_sin rt (fdiv dlon two)) two)) in
  let c :=
    fmul two (math_atan2 rt (fsqrt a) (fsqrt (fsub (float_of_Z 1) a))) in
  fmul earth_radius_miles c.

(** ** Segment synthesis *)

(** A line written to the buffer of [create_road_segments]. *)
Record segment : Type := {
  seg_way_id : Z;
  seg_start_node : Z;
  seg_end_node : Z;
  seg_name : string;
  seg_highway_type : string;
  seg_length_miles : float;
  seg_speed_mph : Z;
  seg_travel_time_s : float;
  seg_oneway : bool
}.

(** [int(float(maxspeed_str.replace('mph', '').strip().split()[0]))] *)
Definition parse_maxspeed (maxspeed_str : string) : result Z :=
  token ← item0 (split (strip (replace "mph" "" maxspeed_str)));
  x ← float_of_str token;
  int_of_float x.

(** The speed of a way: the default of its highway type, replaced by the
    parsed [maxspeed] when there is one; [ValueError] and [IndexError] of
    the parse are caught. *)
Definition resolve_speed (highway maxspeed_str : string) : result Z :=
  let speed := default 45 (DEFAULT_SPEEDS !! highway) in
  match maxspeed_str with
  | EmptyString => Ok speed
  | String _ _ =>
      match parse_maxspeed maxspeed_str with
      | Ok v => Ok v
      | Raise ValueError | Raise IndexError => Ok speed
      | Raise e => Raise e
      end
  end.

(** [l[i]] *)
Definition item {A : Type} (l : list A) (i : nat) : result A :=
  match l !! i with
  | Some x => Ok x
  | None => Raise IndexError
  end.

(** A loop that appends to a buffer; the first exception ends it. *)
Fixpoint collect {A B : Type} (f : A -> result (list B)) (l : list A)
    : result (list B) :=
  match l with
  | [] => Ok []
  | x :: l' => ys ← f x; zs ← collect f l'; Ok (ys ++ zs)
  end.

(** The body of the inner loop of [create_road_segments], at index [i]. *)
Definition pair_segment (coords : gmap Z (float * float)) (w : way_tuple)
    (speed : Z) (i : nat) : result (list segment) :=
  start_id ← item (node_ids w) i;
  end_id ← item (node_ids w) (i + 1);
  match coords !! start_id, coords !! end_id with
  | Some (lat1, lon1), Some (lat2, lon2) =>
      let length_miles := haversine_distance lat1 lon1 lat2 lon2 in
      q ← truediv_int length_miles speed;
      travel_time_s ← mul_int q 3600;
      Ok [{| seg_way_id := way_id w;
             seg_start_node := start_id;
             seg_end_node := end_id;
             seg_name := escape_tsv rt (VStr (name w));
             seg_highway_type := highway w;
             seg_length_miles := length_miles;
             seg_speed_mph := speed;
             seg_travel_time_s := travel_time_s;
             seg_oneway := oneway w |}]
  | _, _ => Ok []
  end.

(** The body of the outer loop: the segments of one way. *)
Definition way_segments (coords : gmap Z (float * float)) (w : way_tuple)
    : result (list segment) :=
  speed ← resolve_speed (highway w) (maxspeed_str w);
  collect (pair_segment coords w speed)
          (seq 0 (length (node_ids w) - 1)).

(** The segments [create_road_segments] writes to its buffer. *)
Definition road_segments (h : OSMHandler) : result (list segment) :=
  collect (way_segments (node_coords h)) (ways h).

Definition py_str_bool (b : bool) : string :=
  if b then "True" else "False".

(** The line of the buffer for a segment. *)
Definition segment_line (s : segment) : string :=
  String.append
    (String.concat (str1 tab)
       [pretty (seg_way_id s); pretty (seg_start_node s);
        pretty (seg_end_node s); seg_name s; seg_highway_type s;
        float_repr rt (seg_length_miles s); pretty (seg_speed_mph s);
        float_repr rt (seg_travel_time_s s); py_str_bool (seg_oneway s)])
    (str1 newline).

Variable server_accepts : cursor -> copy_command -> bool.

(** [create_road_segments(handler, cur)]: the cursor afterwards. *)
Definition create_road_segments (h : OSMHandler) (cur : cursor)
    : result cursor :=
  segs ← road_segments h;
  copy_from server_accepts cur
    (String.concat "" (map segment_line segs)) "road_segments"
    ["way_id"; "start_node"; "end_node"; "name"; "highway_type";
     "length_miles"; "speed_mph"; "travel_time_s"; "oneway"].

End Segments.

(** ** The nearest-city aggregator *)

(** Modelled from the spec: the declarations of the tables [cities],
    [tourist_attractions] and [tourist_attractions_count] are not part of
    the sources; the rows carry the columns the two statements of
    [assign_tourist_attractions_to_cities] read and write, the coordinates
    are [double precision], [cities.id] is the primary key of [cities] and
    [city_id] the one of [tourist_attractions_count], and no column but
    [nearest_city_id] is null. *)
Record city : Type := {
  city_id : Z;
  city_lat : float;
  city_lon : float;
  population : Z
}.

Record attraction_row : Type := {
  ta_id : Z;
  ta_lat : float;
  ta_lon : float;
  nearest_city_id : option Z
}.

Record count_row : Type := {
  count : Z;
  per_capita : float
}.

Record database : Type := {
  cities : list city;
  attractions : list attraction_row;
  tourist_attractions_count : gmap Z count_row
}.

(** The order of [double precision] values in PostgreSQL: the order of the
    numbers, with NaN equal to itself and above every number. *)
Definition float8_cmp (x y : float) : comparison :=
  match x, y with
  | S754_nan, S754_nan => Eq
  | S754_nan, _ => Gt
  | _, S754_nan => Lt
  | _, _ => default Eq (SFcompare x y)
  end.

Definition float8_le (x y : float) : bool :=
  match float8_cmp x y with
  | Gt => false
  | _ => true
  end.

(** [SELECT ... FROM rows ORDER BY key LIMIT 1]: a row of least key, the
    first one in the order of the scan; no row when there is none. *)
Fixpoint order_by_limit_1 {A : Type} (key : A -> float) (rows : list A)
    : option A :=
  match rows with
  | [] => None
  | r :: rows' =>
      match order_by_limit_1 key rows' with
      | None => Some r
      | Some b => if float8_le (key r) (key b) then Some r else Some b
      end
  end.

Section Aggregator.

Variable rt : runtime.

(** [(ta.lat - c.lat)^2 + (ta.lon - c.lon)^2]; the power operator of
    [double precision] is the [pow] of the C library. *)
Definition squared_delta (ta : attraction_row) (c : city) : float :=
  let two := float_of_Z 2 in
  fadd (math_pow rt (fsub (ta_lat ta) (city_lat c)) two)
       (math_pow rt (fsub (ta_lon ta) (city_lon c)) two).

(** The subquery of the [UPDATE]: the [id] of the nearest city. *)
Definition nearest_city (cs : list city) (ta : attraction_row) : option Z :=
  city_id <$> order_by_limit_1 (squared_delta ta) cs.

(** [UPDATE tourist_attractions ta SET nearest_city_id = (...)] *)
Definition update_nearest (cs : list city) (tas : list attraction_row)
    : list attraction_row :=
  map (fun ta =>
         {| ta_id := ta_id ta; ta_lat := ta_lat ta; ta_lon := ta_lon ta;
            nearest_city_id := nearest_city cs ta |})
      tas.

(** [COUNT(t.id)] over the rows joined to the city [c]. *)
Definition count_assigned (tas : list attraction_row) (c : city) : Z :=
  Z.of_nat
    (length (filter (fun t => nearest_city_id t = Some (city_id c)) tas)).

(** [x / y] on [double precision]; a zero divisor is an error. *)
Definition float8_div (x y : float) : result float :=
  if is_zero y then Raise DatabaseError else Ok (fdiv x y).

(** The row the [SELECT] of the [INSERT] yields for the city [c]:
    [c.id, COUNT(t.id), COUNT(t.id)::float / c.population * 10000]. *)
Definition summary_row (tas : list attraction_row) (c : city)
    : result (Z * count_row) :=
  let n := count_assigned tas c in
  q ← float8_div (float_of_Z n) (float_of_Z (population c));
  Ok (city_id c, {| count := n; per_capita := fmul q (float_of_Z 10000) |}).

Fixpoint summary_rows (tas : list attraction_row) (cs : list city)
    : result (list (Z * count_row)) :=
  match cs with
  | [] => Ok []
  | c :: cs' =>
      r ← summary_row tas c; rs ← summary_rows tas cs'; Ok (r :: rs)
  end.

(** [INSERT ... ON CONFLICT (city_id) DO UPDATE SET count = EXCLUDED.count,
    per_capita = EXCLUDED.per_capita] *)
Definition upsert (m : gmap Z count_row) (r : Z * count_row)
    : gmap Z count_row :=
  <[r.1 := r.2]> m.

(** [assign_tourist_attractions_to_cities(conn)]: how the call ends and
    the database afterwards.  The two statements run in one transaction;
    an error rolls it back and is raised again. *)
Definition assign_tourist_attractions_to_cities (db : database)
    : result unit * database :=
  let tas := update_nearest (cities db) (attractions db) in
  match summary_rows tas (cities db) with
  | Ok rows =>
      (Ok tt,
       {| cities := cities db;
          attractions := tas;
          tourist_attractions_count :=
            fold_left upsert rows (tourist_attractions_count db) |})
  | Raise e => (Raise e, db)
  end.

End Aggregator.

(** ** The import *)

(** A connection: the [COPY] commands whose rows the tables hold, as
    committed and as the open transaction sees them. *)
Record connection : Type := {
  committed : cursor;
  working : cursor
}.

(** [conn.commit()] and [conn.rollback()] *)
Definition commit (conn : connection) : connection :=
  {| committed := working conn; working := working conn |}.

Definition rollback (conn : connection) : connection :=
  {| committed := committed conn; working := committed conn |}.

(** The tables [import_to_postgres] clears. *)
Definition import_tables : list string :=
  ["road_segments"; "osm_ways"; "osm_nodes"; "tourist_attractions"].

(** What [TRUNCATE TABLE road_segments, osm_ways, osm_nodes,
    tourist_attractions CASCADE] leaves of the rows this program loads:
    those of other tables. *)
Definition truncate (cur : cursor) : cursor :=
  filter (fun cmd => copy_table cmd ∉ import_tables) cur.

Section ImportToPostgres.

Variable rt : runtime.
Variable server_accepts : cursor -> copy_command -> bool.

(** The verdict of the server on a statement passed to [cur.execute]. *)
Variable execute_accepts : cursor -> string -> bool.

(** [cur.execute(sql)] for a statement with the effect [effect] on the
    rows. *)
Definition execute (sql : string) (effect : cursor -> cursor)
    (conn : connection) : result connection :=
  if execute_accepts (working conn) sql
  then Ok {| committed := committed conn; working := effect (working conn) |}
  else Raise DatabaseError.

(** The rows of [osm_nodes]:
    [[(osm_id, lat, lon, '{}') for osm_id in handler.road_node_ids
      if osm_id in handler.node_coords]]. *)
Definition road_nodes (h : OSMHandler) : list (list value) :=
  omap (fun osm_id =>
          match node_coords h !! osm_id with
          | Some (lat, lon) =>
              Some [VInt osm_id; VFloat lat; VFloat lon; VStr "{}"]
          | None => None
          end)
       (elements (road_node_ids h)).

(** A line of the buffer of ways:
    [f"{way_id}\t{array_str}\t{{}}\n"]. *)
Definition way_line (w : way_tuple) : string :=
  let array_str :=
    String.append "{"
      (String.append (String.concat "," (map pretty (node_ids w))) "}") in
  String.append (pretty (way_id w))
    (String tab (String.append array_str
                   (String tab (String.append "{}" (str1 newline))))).

(** The rows of [tourist_attractions]. *)
Definition attraction_rows (h : OSMHandler) : list (list value) :=
  map (fun a => [VInt (att_id a); VStr (att_name a); VStr (att_type a);
                 VFloat (att_lat a); VFloat (att_lon a)])
      (tourist_attractions h).

(** A step on the cursor of the connection. *)
Definition on_cursor {A : Type} (f : cursor -> result (A * cursor))
    (conn : connection) : result (A * connection) :=
  r ← f (working conn);
  Ok (r.1, {| committed := committed conn; working := r.2 |}).

(** The body of the [try] of [import_to_postgres]: how it ends, and the
    connection at that point. *)
Definition import_steps (h : OSMHandler) (conn : connection)
    : result unit * connection :=
  match execute
          "TRUNCATE TABLE road_segments, osm_ways, osm_nodes, tourist_attractions CASCADE"
          truncate conn with
  | Raise e => (Raise e, conn)
  | Ok conn1 =>
  let conn2 := commit conn1 in
  match execute "SET maintenance_work_mem = '256MB'" (fun c => c) conn2 with
  | Raise e => (Raise e, conn2)
  | Ok conn3 =>
  match on_cursor
          (fun cur => copy_to_table rt server_accepts cur "osm_nodes"
                        ["osm_id"; "lat"; "lon"; "tags"] (road_nodes h))
          conn3 with
  | Raise e => (Raise e, conn3)
  | Ok (_, conn4) =>
  match on_cursor
          (fun cur =>
             cur' ← copy_from server_accepts cur
                      (String.concat "" (map way_line (ways h)))
                      "osm_ways" ["osm_id"; "nodes"; "tags"];
             Ok (tt, cur'))
          conn4 with
  | Raise e => (Raise e, conn4)
  | Ok (_, conn5) =>
  match on_cursor
          (fun cur => copy_to_table rt server_accepts cur
                        "tourist_attractions"
                        ["osm_id"; "name"; "tourism_type"; "lat"; "lon"]
                        (attraction_rows h))
          conn5 with
  | Raise e => (Raise e, conn5)
  | Ok (_, conn6) =>
  let conn7 := commit conn6 in
  match on_cursor
          (fun cur =>
             cur' ← create_road_segments rt server_accepts h cur;
             Ok (tt, cur'))
          conn7 with
  | Raise e => (Raise e, conn7)
  | Ok (_, conn8) => (Ok tt, commit conn8)
  end end end end end end.

(** [import_to_postgres(handler, conn)]: an error of the database rolls
    the open transaction back and is raised again; other exceptions pass
    through. *)
Definition import_to_postgres (h : OSMHandler) (conn : connection)
    : result unit * connection :=
  match import_steps h conn with
  | (Raise DatabaseError, conn') => (Raise DatabaseError, rollback conn')
  | r => r
  end.

End ImportToPostgres.

(** ** Notions used to state the properties *)

(** The needed set is the union of the node lists of the ways kept. *)
Definition needed_exact (h : OSMHandler) : Prop :=
  forall k : Z,
    k ∈ road_node_ids h <-> exists w, w ∈ ways h /\ k ∈ node_ids w.

(** The coordinate map holds the identifiers of the nodes read. *)
Definition coords_of_nodes (file : list entity) (h : OSMHandler) : Prop :=
  forall k : Z,
    is_Some (node_coords h !! k) <-> exists n, Node n ∈ file /\ n_id n = k.

(** A parse that raises [ValueError] or [IndexError] leaves the default. *)
Definition parse_caught (maxspeed_str : string) : Prop :=
  maxspeed_str = EmptyString
  \/ parse_maxspeed maxspeed_str = Raise ValueError
  \/ parse_maxspeed maxspeed_str = Raise IndexError.


(** Both ends of a pair have coordinates. *)
Definition present (coords : gmap Z (float * float)) (ab : Z * Z) : Prop :=
  is_Some (coords !! ab.1) /\ is_Some (coords !! ab.2).

#[global] Instance present_dec coords ab : Decision (present coords ab).
Proof. unfold present. apply _. Defined.



(** A runtime to run examples with.  Its functions are placeholders; no
    example depends on what the trigonometric ones return. *)
Definition example_runtime : runtime := {|
  math_sin := fun x => x;
  math_cos := fun x => x;
  math_atan2 := fun x _ => x;
  math_pow := fun x _ => fmul x x;
  float_repr := fun _ => "0.0"
|}.

(** A server that accepts every command. *)
Definition accept_all : cursor -> copy_command -> bool := fun _ _ => true.

(** The rank of a [double precision] value: the order of PostgreSQL is the
    lexicographic order of the ranks. *)
Definition rank (x : float) : Z * Z * Z :=
  match x with
  | S754_nan => (3, 0, 0)
  | S754_infinity false => (2, 0, 0)
  | S754_infinity true => (-2, 0, 0)
  | S754_zero _ => (0, 0, 0)
  | S754_finite false m e => (1, e, Zpos m)
  | S754_finite true m e => (-1, - e, Zneg m)
  end.

Definition lex_le (a b : Z * Z * Z) : Prop :=
  a.1.1 < b.1.1
  \/ (a.1.1 = b.1.1
      /\ (a.1.2 < b.1.2 \/ (a.1.2 = b.1.2 /\ a.2 <= b.2))).


(** A point of interest at (34.0, -86.9) and the cities at (34.73, -86.586),
    population 215000, and (33.52, -86.802), population 210000. *)
Definition example_database : database := {|
  cities :=
    [ {| city_id := 1;
         city_lat := float_of_decimal false 3473 (-2);
         city_lon := float_of_decimal true 86586 (-3);
         population := 215000 |};
      {| city_id := 2;
         city_lat := float_of_decimal false 3352 (-2);
         city_lon := float_of_decimal true 86802 (-3);
         population := 210000 |} ];
  attractions :=
    [ {| ta_id := 7;
         ta_lat := float_of_decimal false 340 (-1);
         ta_lon := float_of_decimal true 869 (-1);
         nearest_city_id := None |} ];
  tourist_attractions_count := ∅
|}.

(** ** Example data *)

(** Three nodes along I-65 and the motorway through them; [maxspeed] is
    the value of the tag of that name, absent when empty. *)
Definition example_node (id : Z) (lat lon : float) : entity :=
  Node {| n_id := id; n_lat := lat; n_lon := lon; n_tags := ∅ |}.

Definition example_road (maxspeed : string) : entity :=
  Way {| w_id := 1;
         w_nodes := [1001; 1002; 1003];
         w_tags :=
           match maxspeed with
           | EmptyString => {[ "highway" := "motorway" ]}
           | _ => <["maxspeed" := maxspeed]> {[ "highway" := "motorway" ]}
           end |}.

Definition example_file (maxspeed : string) : list entity :=
  [ example_node 1001 (float_of_decimal false 34730 (-3))
                      (float_of_decimal true 86586 (-3));
    example_node 1002 (float_of_decimal false 34606 (-3))
                      (float_of_decimal true 86983 (-3));
    example_road maxspeed;
    example_node 1003 (float_of_decimal false 33520 (-3))
                      (float_of_decimal true 86802 (-3)) ].

(** The same road in a file that lacks the node 1003. *)
Definition partial_file : list entity :=
  [ example_node 1001 (float_of_decimal false 34730 (-3))
                      (float_of_decimal true 86586 (-3));
    example_node 1002 (float_of_decimal false 34606 (-3))
                      (float_of_decimal true 86983 (-3));
    example_road "" ].

Definition example_way (maxspeed : string) : way_tuple :=
  {| way_id := 1; node_ids := [1001; 1002; 1003]; highway := "motorway";
     name := ""; oneway := false; maxspeed_str := maxspeed |}.

(** ** Further notions *)

(** The point entities and the line entities of a file, in order. *)
Definition nodes_of (file : list entity) : list osm_node :=
  omap (fun e => match e with Node n => Some n | Way _ => None end) file.

Definition ways_of (file : list entity) : list osm_way :=
  omap (fun e => match e with Way w => Some w | Node _ => None end) file.

(** The tuple [OSMHandler.way] appends for a line entity, if it does. *)
Definition way_kept (w : osm_way) : option way_tuple :=
  match w_tags w !! "highway" with
  | Some hw =>
      if decide (hw ∈ HIGHWAY_TYPES) then
        Some {| way_id := w_id w;
                node_ids := w_nodes w;
                highway := hw;
                name := default "" (w_tags w !! "name");
                oneway :=
                  String.eqb (default "no" (w_tags w !! "oneway")) "yes";
                maxspeed_str := default "" (w_tags w !! "maxspeed") |}
      else None
  | None => None
  end.

(** The tuple [OSMHandler.node] appends for a point entity, if it does. *)
Definition attraction_kept (n : osm_node) : option attraction :=
  match n_tags n !! "tourism" with
  | Some tourism =>
      if decide (tourism ∈ TOURISM_TYPES) then
        Some {| att_id := n_id n;
                att_name :=
                  default (String.append "Unnamed " tourism)
                          (n_tags n !! "name");
                att_type := tourism;
                att_lat := n_lat n;
                att_lon := n_lon n |}
      else None
  | None => None
  end.

(** The coordinates the last of the nodes with the identifier [k] has. *)
Definition last_coords (k : Z) (ns : list osm_node) : option (float * float) :=
  (fun n => (n_lat n, n_lon n))
    <$> last (filter (fun n => n_id n = k) ns).

(** The number of occurrences of a character, and the fields a separator
    cuts a string into. *)
Fixpoint count_char (c : ascii) (s : string) : nat :=
  match s with
  | EmptyString => 0
  | String d s' => (if Ascii.eqb c d then 1 else 0) + count_char c s'
  end.

Fixpoint split_on (c : ascii) (s : string) : list string :=
  match s with
  | EmptyString => [EmptyString]
  | String d s' =>
      if Ascii.eqb c d then EmptyString :: split_on c s'
      else
        match split_on c s' with
        | f :: fs => String d f :: fs
        | [] => [str1 d]
        end
  end.

(** The sum of the counts of the summary rows of the cities [cs]. *)
Definition total_count (tas : list attraction_row) (cs : list city) : Z :=
  fold_right Z.add 0 (map (count_assigned tas) cs).

(** The [COPY] commands of an import. *)
Definition copy_cmd (table : string) (columns : list string)
    (data : string) : copy_command :=
  {| copy_table := table; copy_columns := columns;
     copy_null := "\N"; copy_data := data |}.

(** What [copy_to_table] sends: nothing for no record. *)
Definition table_copy (rt : runtime) (table : string)
    (columns : list string) (data : list (list value)) : cursor :=
  match data with
  | [] => []
  | _ :: _ =>
      [copy_cmd table columns (String.concat "" (map (tsv_line rt) data))]
  end.

(** The commands for nodes, ways and attractions, and the one for
    segments. *)
Definition first_copies (rt : runtime) (h : OSMHandler) : cursor :=
  table_copy rt "osm_nodes" ["osm_id"; "lat"; "lon"; "tags"] (road_nodes h)
  ++ [copy_cmd "osm_ways" ["osm_id"; "nodes"; "tags"]
        (String.concat "" (map way_line (ways h)))]
  ++ table_copy rt "tourist_attractions"
       ["osm_id"; "name"; "tourism_type"; "lat"; "lon"] (attraction_rows h).

Definition segments_copy (rt : runtime) (segs : list segment)
    : copy_command :=
  copy_cmd "road_segments"
    ["way_id"; "start_node"; "end_node"; "name"; "highway_type";
     "length_miles"; "speed_mph"; "travel_time_s"; "oneway"]
    (String.concat "" (map (segment_line rt) segs)).

(** A connection with nothing pending. *)
Definition settled (c : cursor) : connection :=
  {| committed := c; working := c |}.

(** The example file with the road before the nodes. *)
Definition reordered_file : list entity :=
  [ example_road "";
    example_node 1001 (float_of_decimal false 34730 (-3))
                      (float_of_decimal true 86586 (-3));
    example_node 1002 (float_of_decimal false 34606 (-3))
                      (float_of_decimal true 86983 (-3));
    example_node 1003 (float_of_decimal false 33520 (-3))
                      (float_of_decimal true 86802 (-3)) ].

(** A file of one museum without [name] tag. *)
Definition museum_file : list entity :=
  [ Node {| n_id := 5; n_lat := float_of_decimal false 340 (-1);
            n_lon := float_of_decimal true 869 (-1);
            n_tags := {[ "tourism" := "museum" ]} |} ].

(** A server that accepts, or refuses, every statement. *)
Definition execute_all : cursor -> string -> bool := fun _ _ => true.

(** * Properties *)

(** ** The embedding on a few inputs *)

Example replace_mph : replace "mph" "" "55 mph" = "55 ".
Proof. reflexivity. Qed.

Example replace_left_to_right : replace "aa" "b" "aaaaa" = "bba".
Proof. reflexivity. Qed.

Example split_runs : split "  a b  c " = ["a"; "b"; "c"].
Proof. reflexivity. Qed.

Example float_of_str_tenth :
  float_of_str "0.1" = Ok (S754_finite false 7205759403792794 (-56)).
Proof. vm_compute. reflexivity. Qed.

Example float_of_str_underscore : float_of_str "1__0" = Raise ValueError.
Proof. vm_compute. reflexivity. Qed.

Example parse_maxspeed_mph : parse_maxspeed "55 mph" = Ok 55.
Proof. vm_compute. reflexivity. Qed.

Example parse_maxspeed_fraction : parse_maxspeed "45.9" = Ok 45.
Proof. vm_compute. reflexivity. Qed.

Example parse_maxspeed_word : parse_maxspeed "signals" = Raise ValueError.
Proof. vm_compute. reflexivity. Qed.

Example parse_maxspeed_unit_only : parse_maxspeed "mph" = Raise IndexError.
Proof. vm_compute. reflexivity. Qed.

Example parse_maxspeed_nan : parse_maxspeed "nan" = Raise ValueError.
Proof. vm_compute. reflexivity. Qed.

Example truediv_int_zero :
  truediv_int (float_of_Z 25) 0 = Raise ZeroDivisionError.
Proof. reflexivity. Qed.
(** ** Properties of the string functions *)

Lemma prefix_char a c s :
  String.prefix (str1 a) (String c s) = Ascii.eqb a c.
Proof.
  unfold str1. cbn [String.prefix].
  destruct (ascii_dec a c) as [->|Hne].
  - rewrite Ascii.eqb_refl. now destruct s.
  - symmetry. now apply Ascii.eqb_neq.
Qed.

Lemma replace_char a new s : replace (str1 a) new s = subst_char a new s.
Proof.
  change (replace (str1 a) new s) with (replace_from (str1 a) new 0 s).
  induction s as [|c s IH]; [reflexivity|].
  cbn [replace_from subst_char]. rewrite prefix_char.
  change (String.length (str1 a) - 1)%nat with 0%nat.
  now rewrite IH.
Qed.

Lemma escape_chars s :
  subst_char newline " " (subst_char tab " " (subst_char backslash "\\" s))
  = concat_map escape_char s.
Proof.
  induction s as [|c s IH]; [reflexivity|].
  cbn [subst_char concat_map]. rewrite <- IH. unfold escape_char.
  destruct (Ascii.eqb backslash c) eqn:Eb; [reflexivity|].
  cbn [subst_char]. destruct (Ascii.eqb tab c) eqn:Et; [reflexivity|].
  cbn [subst_char]. destruct (Ascii.eqb newline c) eqn:En; reflexivity.
Qed.

Lemma escape_tsv_chars rt v :
  v <> VNone ->
  escape_tsv rt v = concat_map escape_char (py_str rt v).
Proof.
  intros Hv. destruct v; [congruence| | |];
    unfold escape_tsv; cbv zeta; rewrite !replace_char; apply escape_chars.
Qed.

Lemma occurs_app c s t :
  occurs c (String.append s t) = occurs c s || occurs c t.
Proof.
  induction s as [|d s IH]; [reflexivity|].
  simpl. rewrite IH. now rewrite orb_assoc.
Qed.

Lemma escape_char_clean c :
  occurs tab (escape_char c) = false /\ occurs newline (escape_char c) = false.
Proof.
  unfold escape_char.
  destruct (Ascii.eqb backslash c); [split; reflexivity|].
  destruct (Ascii.eqb tab c) eqn:Et; [split; reflexivity|].
  destruct (Ascii.eqb newline c) eqn:En; [split; reflexivity|].
  unfold str1. cbn [occurs]. rewrite Et, En. split; reflexivity.
Qed.

Lemma concat_map_escape_clean s :
  occurs tab (concat_map escape_char s) = false
  /\ occurs newline (concat_map escape_char s) = false.
Proof.
  induction s as [|c s [IHt IHn]]; [split; reflexivity|].
  cbn [concat_map]. rewrite !occurs_app, IHt, IHn.
  destruct (escape_char_clean c) as [-> ->]. split; reflexivity.
Qed.

Lemma concat_map_escape_not_sentinel s : concat_map escape_char s <> "\N".
Proof.
  destruct s as [|c s]; [discriminate|].
  cbn [concat_map]. unfold escape_char at 1.
  destruct (Ascii.eqb backslash c) eqn:Eb; [discriminate|].
  destruct (Ascii.eqb tab c); [discriminate|].
  destruct (Ascii.eqb newline c); [discriminate|].
  unfold str1. simpl. intros H. injection H as Hc _.
  subst c. discriminate.
Qed.

Lemma concat_map_escape_id s :
  occurs backslash s = false -> occurs tab s = false ->
  occurs newline s = false ->
  concat_map escape_char s = s.
Proof.
  induction s as [|c s IH]; [reflexivity|].
  cbn [occurs concat_map]. intros Hb Ht Hn.
  apply orb_false_iff in Hb as [Hb1 Hb2].
  apply orb_false_iff in Ht as [Ht1 Ht2].
  apply orb_false_iff in Hn as [Hn1 Hn2].
  unfold escape_char at 1. rewrite Hb1, Ht1, Hn1.
  unfold str1. simpl. now rewrite IH.
Qed.

(** C6. [escape_tsv] maps [None] to the sentinel [\N]; a value that is not
    [None] is escaped character by character (a backslash is doubled, a tab
    and a newline become one space), its escaped form is never the
    sentinel, no escaped form holds a tab or a newline, and a string
    without backslash, tab and newline, such as [Tom's Diner], comes back
    unchanged. *)
Theorem escape_tsv_spec (rt : runtime) :
  escape_tsv rt VNone = "\N"
  /\ (forall v, v <> VNone ->
        escape_tsv rt v
        = replace (str1 newline) " "
            (replace (str1 tab) " "
               (replace (str1 backslash) "\\" (py_str rt v)))
        /\ escape_tsv rt v
           = concat_map escape_char (py_str rt v)
        /\ escape_tsv rt v <> "\N")
  /\ (forall v, occurs tab (escape_tsv rt v) = false
                /\ occurs newline (escape_tsv rt v) = false)
  /\ (forall s, occurs backslash s = false -> occurs tab s = false ->
                occurs newline s = false ->
                escape_tsv rt (VStr s) = s)
  /\ escape_tsv rt (VStr "Tom's Diner") = "Tom's Diner".
Proof.
  split; [reflexivity|]. split; [|split; [|split]].
  - intros v Hv. split; [destruct v; [congruence|reflexivity..]|].
    rewrite (escape_tsv_chars _ _ Hv).
    split; [reflexivity|apply concat_map_escape_not_sentinel].
  - intros v. destruct v as [|s|n|f]; [split; reflexivity| | |];
      rewrite escape_tsv_chars by discriminate;
      apply concat_map_escape_clean.
  - intros s Hb Ht Hn.
    rewrite escape_tsv_chars by discriminate. simpl.
    now apply concat_map_escape_id.
  - reflexivity.
Qed.


Lemma escape_tsv_spec_witness :
  escape_tsv example_runtime (VStr "C:\temp") = "C:\\temp"
  /\ escape_tsv example_runtime (VStr "C:\temp") <> "\N"
  /\ escape_tsv example_runtime (VStr "\N") = "\\N"
  /\ escape_tsv example_runtime (VStr "Main St") = "Main St".
Proof.
  destruct (escape_tsv_spec example_runtime) as (_ & Hv & _ & Hid & _).
  assert (Hne : VStr "C:\temp" <> VNone) by discriminate.
  destruct (Hv (VStr "C:\temp") Hne) as (_ & Hc & Hn).
  split; [rewrite Hc; reflexivity|]. split; [exact Hn|].
  split; [reflexivity|]. apply Hid; reflexivity.
Defined.

(** ** The bulk loader *)

(** C10. [copy_to_table] returns the number of records of its input
    whenever it returns; with no record it returns 0 and sends no [COPY]:
    the cursor is as before.  With records it sends one [COPY] of one line
    per record and returns their number when the server accepts it, and
    raises the error of the server otherwise. *)
Theorem copy_to_table_count (rt : runtime)
    (server_accepts : cursor -> copy_command -> bool)
    (cur : cursor) (table : string) (columns : list string)
    (data : list (list value)) :
  (forall n cur',
     copy_to_table rt server_accepts cur table columns data = Ok (n, cur') ->
     n = Z.of_nat (length data))
  /\ copy_to_table rt server_accepts cur table columns [] = Ok (0, cur)
  /\ (data <> [] ->
      let cmd := {| copy_table := table; copy_columns := columns;
                    copy_null := "\N";
                    copy_data := String.concat "" (map (tsv_line rt) data) |} in
      copy_to_table rt server_accepts cur table columns data
      = if server_accepts cur cmd
        then Ok (Z.of_nat (length data), cur ++ [cmd])
        else Raise DatabaseError).
Proof.
  split; [|split; [reflexivity|]].
  - intros n cur' H. destruct data as [|row data]; simpl in H.
    + injection H as <- _. reflexivity.
    + unfold copy_from in H. destruct (server_accepts _ _); [|discriminate H].
      injection H as <- _. reflexivity.
  - intros Hne. destruct data as [|row data]; [contradiction|].
    cbv zeta. unfold copy_to_table, copy_from.
    destruct (server_accepts _ _); reflexivity.
Qed.

Lemma copy_to_table_count_witness :
  copy_to_table example_runtime accept_all [] "osm_nodes"
    ["osm_id"; "lat"; "lon"; "tags"]
    [[VInt 1001; VStr "{}"]; [VInt 1002; VNone]]
  = Ok (2, [{| copy_table := "osm_nodes";
               copy_columns := ["osm_id"; "lat"; "lon"; "tags"];
               copy_null := "\N";
               copy_data :=
                 String.concat ""
                   (map (tsv_line example_runtime)
                      [[VInt 1001; VStr "{}"]; [VInt 1002; VNone]]) |}]).
Proof.
  destruct (copy_to_table_count example_runtime accept_all [] "osm_nodes"
              ["osm_id"; "lat"; "lon"; "tags"]
              [[VInt 1001; VStr "{}"]; [VInt 1002; VNone]]) as (_ & _ & H).
  apply H. discriminate.
Defined.

(** ** Extraction and reclamation *)

Lemma needed_exact_init : needed_exact init.
Proof.
  intros k. simpl. split.
  - intros Hk. set_solver.
  - intros (w & Hw & _). set_solver.
Qed.

Lemma needed_exact_handle h e : needed_exact h -> needed_exact (handle h e).
Proof.
  intros Hh. destruct e as [n|w]; [exact Hh|].
  unfold handle, way.
  destruct (w_tags w !! "highway") as [hw|]; [|exact Hh].
  destruct (decide (hw ∈ HIGHWAY_TYPES)); [|exact Hh].
  intros k. simpl.
  rewrite elem_of_union, elem_of_list_to_set, (Hh k). split.
  - intros [(w' & Hw' & Hk)|Hk].
    + exists w'. rewrite elem_of_app. auto.
    + eexists. rewrite elem_of_app, list_elem_of_singleton.
      split; [right; reflexivity|exact Hk].
  - intros (w' & Hw' & Hk).
    rewrite elem_of_app, list_elem_of_singleton in Hw'.
    destruct Hw' as [Hw'| ->]; [left; eauto|right; exact Hk].
Qed.

Lemma needed_exact_apply_file file h :
  needed_exact h -> needed_exact (apply_file h file).
Proof.
  revert h. induction file as [|e file IH]; intros h Hh; [exact Hh|].
  apply IH, needed_exact_handle, Hh.
Qed.

Lemma coords_way h w : node_coords (way h w) = node_coords h.
Proof.
  unfold way. destruct (w_tags w !! "highway"); [|reflexivity].
  destruct (decide (_ ∈ HIGHWAY_TYPES)); reflexivity.
Qed.

Lemma coords_of_nodes_apply_file file seen h :
  coords_of_nodes seen h ->
  coords_of_nodes (seen ++ file) (apply_file h file).
Proof.
  revert seen h. induction file as [|e file IH]; intros seen h Hh.
  - rewrite app_nil_r. exact Hh.
  - replace (seen ++ e :: file) with ((seen ++ [e]) ++ file)
      by (rewrite <- app_assoc; reflexivity).
    apply IH. intros k. destruct e as [n|w]; simpl.
    + rewrite lookup_insert_is_Some, (Hh k). split.
      * intros [<-|[_ (n' & Hn' & <-)]].
        -- exists n. rewrite elem_of_app, list_elem_of_singleton. auto.
        -- exists n'. rewrite elem_of_app. auto.
      * intros (n' & Hn' & <-).
        rewrite elem_of_app, list_elem_of_singleton in Hn'.
        destruct Hn' as [Hn'|[= ->]]; [|left; reflexivity].
        destruct (decide (n_id n = n_id n')); [left; assumption|].
        right. split; [assumption|]. eauto.
    + rewrite coords_way, (Hh k). split.
      * intros (n' & Hn' & <-). exists n'. rewrite elem_of_app. auto.
      * intros (n' & Hn' & <-).
        rewrite elem_of_app, list_elem_of_singleton in Hn'.
        destruct Hn' as [Hn'|[=]]. eauto.
Qed.

Lemma reclaim_lookup h k :
  node_coords (reclaim h) !! k
  = if decide (k ∈ road_node_ids h) then node_coords h !! k else None.
Proof.
  unfold reclaim. simpl. destruct (decide (k ∈ road_node_ids h)) as [Hk|Hk].
  - destruct (node_coords h !! k) as [v|] eqn:E.
    + apply map_lookup_filter_Some. auto.
    + apply map_lookup_filter_None. left. exact E.
  - apply map_lookup_filter_None. right. intros v _. exact Hk.
Qed.

(** C4. Reclamation replaces the coordinate map by its restriction to the
    needed set, and an identifier is in the needed set iff it is in the
    node list of a way kept. *)
Theorem reclaim_restricts_to_needed (file : list entity) :
  let h := apply_file init file in
  node_coords (extract file)
  = filter (fun kv : Z * (float * float) => kv.1 ∈ road_node_ids h)
           (node_coords h)
  /\ (forall k : Z,
        node_coords (extract file) !! k
        = if decide (k ∈ road_node_ids h) then node_coords h !! k else None)
  /\ dom (node_coords (extract file)) = dom (node_coords h) ∩ road_node_ids h
  /\ road_node_ids (extract file) = road_node_ids h
  /\ ways (extract file) = ways h
  /\ (forall k : Z,
        k ∈ road_node_ids h
        <-> exists w, w ∈ ways (extract file) /\ k ∈ node_ids w).
Proof.
  intros h. split; [reflexivity|]. split; [apply reclaim_lookup|].
  split; [|split; [reflexivity|split; [reflexivity|]]].
  - apply set_eq. intros k. rewrite elem_of_intersection, !elem_of_dom.
    unfold extract. fold h. rewrite reclaim_lookup.
    destruct (decide (k ∈ road_node_ids h)) as [Hk|Hk].
    + tauto.
    + split; [intros [? [=]]|tauto].
  - apply (needed_exact_apply_file file init needed_exact_init).
Qed.

(** C3, as the code has it. An identifier in the node list of a way kept
    has, after reclamation, the entry it had before; it has one exactly
    when the file holds a node with that identifier. *)
Theorem reclaim_keeps_referenced (file : list entity) (k : Z) (w : way_tuple) :
  w ∈ ways (extract file) -> k ∈ node_ids w ->
  node_coords (extract file) !! k = node_coords (apply_file init file) !! k
  /\ (is_Some (node_coords (extract file) !! k)
      <-> exists n, Node n ∈ file /\ n_id n = k).
Proof.
  intros Hw Hk.
  assert (Hneeded : k ∈ road_node_ids (apply_file init file)).
  { apply (needed_exact_apply_file file init needed_exact_init). eauto. }
  assert (Heq : node_coords (extract file) !! k
                = node_coords (apply_file init file) !! k).
  { unfold extract. rewrite reclaim_lookup.
    destruct (decide _); [reflexivity|contradiction]. }
  split; [exact Heq|]. rewrite Heq.
  apply (coords_of_nodes_apply_file file [] init).
  intros k'. simpl. rewrite lookup_empty. split.
  - intros [? [=]].
  - intros (n & Hn & _). inversion Hn.
Qed.

Lemma reclaim_keeps_referenced_witness :
  node_coords (extract (example_file "")) !! 1003
  = node_coords (apply_file init (example_file "")) !! 1003
  /\ (is_Some (node_coords (extract (example_file "")) !! 1003)
      <-> exists n, Node n ∈ example_file "" /\ n_id n = 1003).
Proof.
  apply (reclaim_keeps_referenced (example_file "") 1003 (example_way "")).
  - assert (ways (extract (example_file "")) = [example_way ""]) as ->
      by (vm_compute; reflexivity).
    left.
  - right. right. left.
Defined.

(** C3 as stated fails: in [partial_file] the road kept refers to the node
    1003, which the file does not hold; the identifier is in the needed
    set and has no entry after reclamation. *)
Lemma reclaim_missing_node :
  ~ (forall file w k,
       w ∈ ways (extract file) -> k ∈ node_ids w ->
       is_Some (node_coords (extract file) !! k)).
Proof.
  intros H. specialize (H partial_file (example_way "") 1003).
  assert (Hnone : node_coords (extract partial_file) !! 1003 = None)
    by (vm_compute; reflexivity).
  rewrite Hnone in H. destruct H as [? [=]].
  - assert (ways (extract partial_file) = [example_way ""]) as ->
      by (vm_compute; reflexivity).
    left.
  - right. right. left.
Qed.

(** ** Speed resolution *)

Lemma default_speeds_positive :
  map_Forall (fun (_ : string) (v : Z) => 0 < v) DEFAULT_SPEEDS.
Proof.
  unfold DEFAULT_SPEEDS.
  repeat (apply map_Forall_insert_2; [lia|]).
  apply map_Forall_empty.
Qed.

Lemma default_speeds_recognized hw :
  hw ∈ HIGHWAY_TYPES -> is_Some (DEFAULT_SPEEDS !! hw).
Proof.
  unfold HIGHWAY_TYPES. rewrite !elem_of_union, !elem_of_singleton.
  intros H. repeat destruct H as [H|H]; subst hw; vm_compute; eauto.
Qed.

Lemma resolve_speed_default hw maxspeed_str :
  parse_caught maxspeed_str ->
  resolve_speed hw maxspeed_str = Ok (default 45 (DEFAULT_SPEEDS !! hw)).
Proof.
  unfold resolve_speed. intros [->|[H|H]]; [reflexivity| |];
    (destruct maxspeed_str; [reflexivity|]); rewrite H; reflexivity.
Qed.

Lemma resolve_speed_parsed hw maxspeed_str v :
  parse_maxspeed maxspeed_str = Ok v ->
  resolve_speed hw maxspeed_str = Ok v.
Proof.
  unfold resolve_speed. intros H. destruct maxspeed_str.
  - discriminate H.
  - rewrite H. reflexivity.
Qed.


(** C2, as the code has it. For a way of a recognized highway type whose
    [maxspeed] is absent or fails to parse with a caught exception, the
    speed is the default of the type and is strictly positive; a [maxspeed]
    that parses is taken as its integer part, whatever its sign. *)
Theorem resolve_speed_positive_default (hw maxspeed_str : string) :
  hw ∈ HIGHWAY_TYPES ->
  (parse_caught maxspeed_str ->
   exists v, DEFAULT_SPEEDS !! hw = Some v
             /\ resolve_speed hw maxspeed_str = Ok v /\ 0 < v)
  /\ (forall v, parse_maxspeed maxspeed_str = Ok v ->
                resolve_speed hw maxspeed_str = Ok v).
Proof.
  intros Hhw. split.
  - intros Hc. destruct (default_speeds_recognized hw Hhw) as [v Hv].
    exists v. split; [exact Hv|]. split.
    + rewrite (resolve_speed_default _ _ Hc), Hv. reflexivity.
    + exact (default_speeds_positive hw v Hv).
  - intros v. apply resolve_speed_parsed.
Qed.

Lemma resolve_speed_positive_default_witness :
  (exists v, DEFAULT_SPEEDS !! "trunk" = Some v
             /\ resolve_speed "trunk" "signals" = Ok v /\ 0 < v)
  /\ resolve_speed "trunk" "55 mph" = Ok 55.
Proof.
  assert (Hhw : "trunk" ∈ HIGHWAY_TYPES) by (vm_compute; reflexivity).
  destruct (resolve_speed_positive_default "trunk" "signals" Hhw) as [H _].
  destruct (resolve_speed_positive_default "trunk" "55 mph" Hhw) as [_ H'].
  split.
  - apply H. right. left. vm_compute. reflexivity.
  - apply H'. vm_compute. reflexivity.
Defined.

(** C2 as stated fails: the way [motorway] with [maxspeed=0] has the
    speed 0. *)
Lemma resolve_speed_zero :
  ~ (forall hw maxspeed_str v,
       hw ∈ HIGHWAY_TYPES -> resolve_speed hw maxspeed_str = Ok v -> 0 < v).
Proof.
  intros H.
  assert (Hhw : "motorway" ∈ HIGHWAY_TYPES) by (vm_compute; reflexivity).
  specialize (H "motorway" "0" 0 Hhw eq_refl). lia.
Qed.

(** C7 at the input [maxspeed=inf]: [float] accepts the token, [int] raises
    [OverflowError], which is not among the exceptions caught; it leaves
    [create_road_segments]. *)
Theorem resolve_speed_infinite :
  parse_maxspeed "inf" = Raise OverflowError
  /\ resolve_speed "motorway" "inf" = Raise OverflowError
  /\ resolve_speed "motorway" "1e999 mph" = Raise OverflowError
  /\ create_road_segments example_runtime accept_all
       (extract (example_file "inf")) [] = Raise OverflowError.
Proof. repeat split; vm_compute; reflexivity. Qed.

(** ** Segment synthesis *)

Lemma bind_Ok_inv {A B : Type} (r : result A) (k : A -> result B) (y : B) :
  (x ← r; k x) = Ok y -> exists a, r = Ok a /\ k a = Ok y.
Proof. destruct r as [a|e]; simpl; [eauto|discriminate]. Qed.

Lemma collect_Ok_elem {A B : Type} (f : A -> result (list B)) l ys y :
  collect f l = Ok ys -> y ∈ ys ->
  exists x zs, x ∈ l /\ f x = Ok zs /\ y ∈ zs.
Proof.
  revert ys. induction l as [|x l IH]; intros ys H Hy; simpl in H.
  - injection H as <-. inversion Hy.
  - apply bind_Ok_inv in H as (zs & Hx & H).
    apply bind_Ok_inv in H as (ws & Hl & H). injection H as <-.
    apply elem_of_app in Hy as [Hy|Hy].
    + exists x, zs. split; [left|]. auto.
    + destruct (IH ws Hl Hy) as (x' & zs' & Hx' & Hf & Hy').
      exists x', zs'. split; [right; exact Hx'|]. auto.
Qed.

Lemma collect_Ok_all {A B : Type} (f : A -> result (list B))
    (g : A -> list B) l :
  (forall x, x ∈ l -> f x = Ok (g x)) ->
  collect f l = Ok (concat (map g l)).
Proof.
  induction l as [|x l IH]; intros H; [reflexivity|].
  simpl. rewrite (H x) by left. simpl.
  rewrite IH by (intros y Hy; apply H; right; exact Hy). reflexivity.
Qed.


Lemma truediv_int_Ok x v q :
  truediv_int x v = Ok q <->
  exists d, float_of_int v = Ok d /\ is_zero d = false /\ q = fdiv x d.
Proof.
  unfold truediv_int. destruct (float_of_int v) as [d|e]; simpl.
  - destruct (is_zero d) eqn:Ez; split.
    + discriminate.
    + intros (d' & [= <-] & Hz & _). congruence.
    + intros [= <-]. eauto.
    + intros (d' & [= <-] & _ & ->). reflexivity.
  - split; [discriminate|]. intros (d' & [=] & _).
Qed.

Lemma mul_int_3600 q : mul_int q 3600 = Ok (fmul q (float_of_Z 3600)).
Proof. reflexivity. Qed.








Lemma pair_segment_fields rt coords w v i zs s :
  pair_segment rt coords w v i = Ok zs -> s ∈ zs ->
  exists lat1 lon1 lat2 lon2 d,
    seg_way_id s = way_id w /\ seg_speed_mph s = v
    /\ node_ids w !! i = Some (seg_start_node s)
    /\ node_ids w !! (i + 1)%nat = Some (seg_end_node s)
    /\ coords !! seg_start_node s = Some (lat1, lon1)
    /\ coords !! seg_end_node s = Some (lat2, lon2)
    /\ seg_length_miles s = haversine_distance rt lat1 lon1 lat2 lon2
    /\ float_of_int v = Ok d /\ is_zero d = false
    /\ seg_travel_time_s s
       = fmul (fdiv (seg_length_miles s) d) (float_of_Z 3600).
Proof.
  unfold pair_segment, item. intros H Hs.
  destruct (node_ids w !! i) as [a|] eqn:Ea; [|discriminate H].
  destruct (node_ids w !! (i + 1)%nat) as [b|] eqn:Eb; [|discriminate H].
  cbn [mbind result_bind] in H.
  destruct (coords !! a) as [[lat1 lon1]|] eqn:Ca;
    [|injection H as <-; inversion Hs].
  destruct (coords !! b) as [[lat2 lon2]|] eqn:Cb;
    [|injection H as <-; inversion Hs].
  apply bind_Ok_inv in H as (q & Hq & H).
  rewrite mul_int_3600 in H. cbn [mbind result_bind] in H.
  injection H as <-. apply list_elem_of_singleton in Hs. subst s.
  apply truediv_int_Ok in Hq as (d & Hd & Hz & ->).
  exists lat1, lon1, lat2, lon2, d. cbn. repeat split; assumption.
Qed.

(** C1. Every segment [create_road_segments] writes has
    [travel_time_s = length_miles / speed * 3600] in binary64 arithmetic,
    where [length_miles] is [haversine_distance] of the coordinates of its
    two end nodes and [speed] is the speed resolved for its way. *)
Theorem create_road_segments_travel_time (rt : runtime)
    (server_accepts : cursor -> copy_command -> bool)
    (h : OSMHandler) (cur cur' : cursor) :
  create_road_segments rt server_accepts h cur = Ok cur' ->
  exists segs,
    road_segments rt h = Ok segs
    /\ (exists cmd, cur' = cur ++ [cmd]
          /\ copy_table cmd = "road_segments"
          /\ copy_data cmd = String.concat "" (map (segment_line rt) segs))
    /\ forall s, s ∈ segs ->
         exists w lat1 lon1 lat2 lon2 d,
           w ∈ ways h /\ seg_way_id s = way_id w
           /\ resolve_speed (highway w) (maxspeed_str w) = Ok (seg_speed_mph s)
           /\ node_coords h !! seg_start_node s = Some (lat1, lon1)
           /\ node_coords h !! seg_end_node s = Some (lat2, lon2)
           /\ seg_length_miles s = haversine_distance rt lat1 lon1 lat2 lon2
           /\ float_of_int (seg_speed_mph s) = Ok d /\ is_zero d = false
           /\ seg_travel_time_s s
              = fmul (fdiv (seg_length_miles s) d) (float_of_Z 3600).
Proof.
  unfold create_road_segments. intros H.
  apply bind_Ok_inv in H as (segs & Hsegs & H).
  exists segs. split; [exact Hsegs|]. split.
  - unfold copy_from in H. destruct (server_accepts _ _); [|discriminate].
    injection H as <-. eexists. split; [reflexivity|]. split; reflexivity.
  - intros s Hs. unfold road_segments in Hsegs.
    destruct (collect_Ok_elem _ _ _ _ Hsegs Hs) as (w & zs & Hw & Hws & Hz).
    unfold way_segments in Hws.
    apply bind_Ok_inv in Hws as (v & Hv & Hws).
    destruct (collect_Ok_elem _ _ _ _ Hws Hz) as (i & ys & _ & Hi & Hy).
    destruct (pair_segment_fields _ _ _ _ _ _ _ Hi Hy)
      as (lat1 & lon1 & lat2 & lon2 & d & Hid & Hsp & _ & _ & Hc1 & Hc2
          & Hlen & Hd & Hnz & Ht).
    exists w, lat1, lon1, lat2, lon2, d. rewrite Hsp.
    repeat split; assumption.
Qed.


Lemma create_road_segments_travel_time_witness :
  exists cur' segs,
    create_road_segments example_runtime accept_all
      (extract (example_file "55 mph")) [] = Ok cur'
    /\ road_segments example_runtime (extract (example_file "55 mph"))
       = Ok segs
    /\ length segs = 2%nat
    /\ forall s, s ∈ segs ->
         exists d, float_of_int (seg_speed_mph s) = Ok d
                   /\ seg_travel_time_s s
                      = fmul (fdiv (seg_length_miles s) d) (float_of_Z 3600).
Proof.
  destruct (create_road_segments example_runtime accept_all
              (extract (example_file "55 mph")) []) as [cur'|e] eqn:E;
    [|vm_compute in E; discriminate E].
  destruct (create_road_segments_travel_time _ _ _ _ _ E)
    as (segs & Hsegs & _ & Hall).
  exists cur', segs. split; [reflexivity|]. split; [exact Hsegs|]. split.
  - vm_compute in Hsegs. injection Hsegs as <-. reflexivity.
  - intros s Hs.
    destruct (Hall s Hs) as (w & ? & ? & ? & ? & d & _ & _ & _ & _ & _ & _
                             & Hd & _ & Ht).
    exists d. split; assumption.
Defined.



(** ** The aggregator *)

Lemma float8_le_rank x y : float8_le x y = true <-> lex_le (rank x) (rank y).
Proof.
  unfold float8_le, float8_cmp, lex_le.
  destruct x as [sx|sx| |sx mx ex], y as [sy|sy| |sy my ey];
    try destruct sx; try destruct sy; cbn;
    try (split; [intros _; lia | reflexivity]);
    try (split; [discriminate | lia]).
  - change (PosDef.Pos.compare_cont Eq mx my) with (Pos.compare mx my).
    destruct (Z.compare_spec ex ey);
      [destruct (Pos.compare_spec mx my)|..]; cbn;
      (split; [try discriminate; intros _; lia
              |try reflexivity; intros; exfalso; lia]).
  - change (PosDef.Pos.compare_cont Eq mx my) with (Pos.compare mx my).
    destruct (Z.compare_spec ex ey);
      [destruct (Pos.compare_spec mx my)|..]; cbn;
      (split; [try discriminate; intros _; lia
              |try reflexivity; intros; exfalso; lia]).
Qed.

Lemma float8_le_total x y : float8_le x y = true \/ float8_le y x = true.
Proof. rewrite !float8_le_rank. unfold lex_le. lia. Qed.

Lemma float8_le_trans x y z :
  float8_le x y = true -> float8_le y z = true -> float8_le x z = true.
Proof. rewrite !float8_le_rank. unfold lex_le. lia. Qed.

Lemma float8_le_false x y : float8_le x y = false -> float8_le y x = true.
Proof. destruct (float8_le_total x y) as [H|H]; [congruence|auto]. Qed.

Lemma order_by_limit_1_None {A : Type} (key : A -> float) rows :
  order_by_limit_1 key rows = None <-> rows = [].
Proof.
  destruct rows as [|a rows]; simpl; [tauto|].
  destruct (order_by_limit_1 key rows);
    [destruct (float8_le _ _)|]; split; discriminate.
Qed.

Lemma order_by_limit_1_least {A : Type} (key : A -> float) rows r :
  order_by_limit_1 key rows = Some r ->
  r ∈ rows
  /\ forall r', r' ∈ rows -> float8_le (key r) (key r') = true.
Proof.
  revert r. induction rows as [|a rows IH]; intros r H; [discriminate H|].
  simpl in H. destruct (order_by_limit_1 key rows) as [b|] eqn:E.
  - destruct (IH b eq_refl) as [Hb Hmin].
    destruct (float8_le (key a) (key b)) eqn:Hab; injection H as <-.
    + split; [left|]. intros r' Hr'. apply elem_of_cons in Hr' as [->|Hr'].
      * destruct (float8_le_total (key a) (key a)); assumption.
      * eapply float8_le_trans; [exact Hab|auto].
    + split; [right; exact Hb|]. intros r' Hr'.
      apply elem_of_cons in Hr' as [->|Hr']; [|auto].
      apply float8_le_false, Hab.
  - injection H as <-. apply order_by_limit_1_None in E as ->.
    split; [left|]. intros r' Hr'.
    apply list_elem_of_singleton in Hr' as ->.
    destruct (float8_le_total (key a) (key a)); assumption.
Qed.

Lemma nearest_city_least rt cs ta :
  match nearest_city rt cs ta with
  | Some id =>
      exists c, c ∈ cs /\ city_id c = id
                /\ forall c', c' ∈ cs ->
                     float8_le (squared_delta rt ta c)
                               (squared_delta rt ta c') = true
  | None => cs = []
  end.
Proof.
  unfold nearest_city.
  destruct (order_by_limit_1 (squared_delta rt ta) cs) as [c|] eqn:E; simpl.
  - destruct (order_by_limit_1_least _ _ _ E) as [Hc Hmin]. eauto.
  - apply order_by_limit_1_None in E. exact E.
Qed.

Lemma update_nearest_idem rt cs tas :
  update_nearest rt cs (update_nearest rt cs tas) = update_nearest rt cs tas.
Proof.
  unfold update_nearest. rewrite map_map. apply map_ext.
  intros ta. reflexivity.
Qed.

Lemma list_to_map_snoc_union (l : list (Z * count_row)) k v
    (m : gmap Z count_row) :
  list_to_map (l ++ [(k, v)]) ∪ m = list_to_map l ∪ <[k := v]> m.
Proof.
  induction l as [|[k' v'] l IH]; simpl.
  - rewrite <- insert_union_l, !(left_id_L ∅ (∪)). reflexivity.
  - rewrite <- !insert_union_l, IH. reflexivity.
Qed.

Lemma fold_upsert_union rows (m : gmap Z count_row) :
  fold_left upsert rows m = list_to_map (reverse rows) ∪ m.
Proof.
  revert m. induction rows as [|[k v] rows IH]; intros m; simpl.
  - rewrite (left_id_L ∅ (∪)). reflexivity.
  - rewrite IH, reverse_cons, list_to_map_snoc_union. reflexivity.
Qed.

Lemma fold_upsert_idem rows (m : gmap Z count_row) :
  fold_left upsert rows (fold_left upsert rows m) = fold_left upsert rows m.
Proof.
  rewrite !fold_upsert_union, (assoc_L (∪)), (idemp_L (∪)). reflexivity.
Qed.



(** C9. Running the aggregator a second time, on the database the first
    run leaves, ends the same way and leaves the same database: the same
    assignments and the same summary rows. *)
Theorem assign_idempotent (rt : runtime) (db : database) :
  assign_tourist_attractions_to_cities rt
    (assign_tourist_attractions_to_cities rt db).2
  = assign_tourist_attractions_to_cities rt db.
Proof.
  unfold assign_tourist_attractions_to_cities at 2 3.
  destruct (summary_rows
              (update_nearest rt (cities db) (attractions db)) (cities db))
    as [rows|e] eqn:E; cbn [snd].
  - unfold assign_tourist_attractions_to_cities.
    cbn [cities attractions tourist_attractions_count].
    rewrite update_nearest_idem, E, fold_upsert_idem. reflexivity.
  - unfold assign_tourist_attractions_to_cities. rewrite E. reflexivity.
Qed.


(** * Further properties *)

(** ** The handler *)

Lemma apply_file_snoc h file e :
  apply_file h (file ++ [e]) = handle (apply_file h file) e.
Proof. unfold apply_file. rewrite fold_left_app. reflexivity. Qed.

Lemma way_leaves_nodes h w :
  node_coords (way h w) = node_coords h
  /\ tourist_attractions (way h w) = tourist_attractions h
  /\ node_count (way h w) = node_count h.
Proof.
  unfold way. destruct (w_tags w !! "highway") as [hw|]; [|done].
  destruct (decide (hw ∈ HIGHWAY_TYPES)); done.
Qed.

Lemma way_appends h w :
  ways (way h w) = ways h ++ option_list (way_kept w)
  /\ road_node_ids (way h w)
     = road_node_ids h
       ∪ from_option (fun t => list_to_set (node_ids t)) ∅ (way_kept w).
Proof.
  unfold way, way_kept. destruct (w_tags w !! "highway") as [hw|].
  - destruct (decide (hw ∈ HIGHWAY_TYPES)); cbn.
    + done.
    + rewrite app_nil_r, (right_id_L ∅ (∪)). done.
  - cbn. rewrite app_nil_r, (right_id_L ∅ (∪)). done.
Qed.

Lemma node_appends h n :
  tourist_attractions (node h n)
  = tourist_attractions h ++ option_list (attraction_kept n).
Proof.
  unfold node, attraction_kept. cbn [tourist_attractions].
  destruct (n_tags n !! "tourism") as [t|]; cbn.
  - destruct (decide (t ∈ TOURISM_TYPES)); cbn;
      [reflexivity|rewrite app_nil_r; reflexivity].
  - rewrite app_nil_r. reflexivity.
Qed.

Lemma ways_apply_file h file :
  ways (apply_file h file) = ways h ++ omap way_kept (ways_of file).
Proof.
  revert h. induction file as [|e file IH]; intros h.
  - simpl. rewrite app_nil_r. reflexivity.
  - change (apply_file h (e :: file)) with (apply_file (handle h e) file).
    rewrite IH. destruct e as [n|w]; [reflexivity|].
    cbn [handle]. rewrite (proj1 (way_appends h w)).
    unfold ways_of. cbn [omap list_omap]. fold (ways_of file).
    rewrite <- app_assoc. destruct (way_kept w); reflexivity.
Qed.

Lemma attractions_apply_file h file :
  tourist_attractions (apply_file h file)
  = tourist_attractions h ++ omap attraction_kept (nodes_of file).
Proof.
  revert h. induction file as [|e file IH]; intros h.
  - simpl. rewrite app_nil_r. reflexivity.
  - change (apply_file h (e :: file)) with (apply_file (handle h e) file).
    rewrite IH. destruct e as [n|w]; cbn [handle].
    + rewrite node_appends.
      unfold nodes_of. cbn [omap list_omap]. fold (nodes_of file).
      rewrite <- app_assoc. destruct (attraction_kept n); reflexivity.
    + destruct (way_leaves_nodes h w) as (_ & -> & _). reflexivity.
Qed.

Lemma node_count_apply_file h file :
  node_count (apply_file h file)
  = node_count h + Z.of_nat (length (nodes_of file)).
Proof.
  revert h. induction file as [|e file IH]; intros h.
  - simpl. lia.
  - change (apply_file h (e :: file)) with (apply_file (handle h e) file).
    rewrite IH. destruct e as [n|w]; cbn [handle].
    + unfold nodes_of. cbn [omap list_omap node node_count length].
      fold (nodes_of file). lia.
    + destruct (way_leaves_nodes h w) as (_ & _ & ->). reflexivity.
Qed.

Lemma road_node_ids_apply_file h file k :
  k ∈ road_node_ids (apply_file h file)
  <-> k ∈ road_node_ids h
      \/ exists t, t ∈ omap way_kept (ways_of file) /\ k ∈ node_ids t.
Proof.
  revert h. induction file as [|e file IH]; intros h.
  - simpl. split; [auto|]. intros [H|(t & Ht & _)]; [exact H|inversion Ht].
  - change (apply_file h (e :: file)) with (apply_file (handle h e) file).
    rewrite IH. destruct e as [n|w]; cbn [handle]; [reflexivity|].
    rewrite (proj2 (way_appends h w)), elem_of_union.
    unfold ways_of. cbn [omap list_omap]. fold (ways_of file).
    destruct (way_kept w) as [t0|]; cbn.
    + rewrite elem_of_list_to_set. split.
      * intros [[H|H]|(t & Ht & Hk)]; [auto| |].
        -- right. exists t0. split; [left|exact H].
        -- right. exists t. split; [right; exact Ht|exact Hk].
      * intros [H|(t & Ht & Hk)]; [auto|].
        apply elem_of_cons in Ht as [->|Ht]; [auto|].
        right. eauto.
    + split.
      * intros [[H|H]|H]; [auto|set_solver|auto].
      * intros [H|H]; auto.
Qed.

Lemma node_coords_apply_file h file k :
  node_coords (apply_file h file) !! k
  = match last_coords k (nodes_of file) with
    | Some c => Some c
    | None => node_coords h !! k
    end.
Proof.
  induction file as [|e file IH] using rev_ind; [reflexivity|].
  rewrite apply_file_snoc. unfold nodes_of, last_coords in *.
  rewrite omap_app. destruct e as [n|w]; cbn [omap list_omap handle].
  - rewrite filter_app, filter_cons, filter_nil. cbn [node node_coords].
    destruct (decide (n_id n = k)) as [<-|Hne].
    + rewrite lookup_insert_eq, last_snoc. reflexivity.
    + rewrite lookup_insert_ne by exact Hne. rewrite app_nil_r. exact IH.
  - rewrite app_nil_r. destruct (way_leaves_nodes (apply_file h file) w)
      as (-> & _). exact IH.
Qed.

Lemma handler_eq (h1 h2 : OSMHandler) :
  node_coords h1 = node_coords h2 -> ways h1 = ways h2 ->
  tourist_attractions h1 = tourist_attractions h2 ->
  road_node_ids h1 = road_node_ids h2 -> node_count h1 = node_count h2 ->
  h1 = h2.
Proof. destruct h1, h2; simpl; intros; subst; reflexivity. Qed.


(** X1. [handler.ways] lists, in the order of the file, the ways whose
    [highway] tag is in [HIGHWAY_TYPES], with the node list of the way as
    it is; each has a positive default speed, and its one-way flag is set
    exactly when the [oneway] tag is [yes]. *)
Theorem ways_of_recognized_highways (file : list entity) :
  ways (extract file) = omap way_kept (ways_of file)
  /\ forall t, t ∈ ways (extract file) ->
       highway t ∈ HIGHWAY_TYPES
       /\ (exists v, DEFAULT_SPEEDS !! highway t = Some v /\ 0 < v)
       /\ exists w, Way w ∈ file /\ way_id t = w_id w
                    /\ node_ids t = w_nodes w
                    /\ w_tags w !! "highway" = Some (highway t)
                    /\ (oneway t = true <-> w_tags w !! "oneway" = Some "yes").
Proof.
  assert (Hw : ways (extract file) = omap way_kept (ways_of file))
    by apply (ways_apply_file init file).
  split; [exact Hw|]. intros t Ht. rewrite Hw in Ht.
  apply list_elem_of_omap in Ht as (w & Hwf & Hk).
  unfold ways_of in Hwf. apply list_elem_of_omap in Hwf as (e & He & Hew).
  destruct e as [n|w']; [discriminate Hew|]. injection Hew as ->.
  unfold way_kept in Hk.
  destruct (w_tags w !! "highway") as [hw|] eqn:Ehw; [|discriminate Hk].
  destruct (decide (hw ∈ HIGHWAY_TYPES)) as [Hin|]; [|discriminate Hk].
  injection Hk as <-. cbn. split; [exact Hin|]. split.
  - destruct (default_speeds_recognized hw Hin) as [v Hv].
    exists v. split; [exact Hv|exact (default_speeds_positive hw v Hv)].
  - exists w. repeat split; try assumption.
    + intros H. apply String.eqb_eq in H.
      destruct (w_tags w !! "oneway") as [o|]; cbn in H;
        [congruence|discriminate H].
    + intros ->. reflexivity.
Qed.

(** X2. [handler.tourist_attractions] lists, in the order of the file, the
    nodes whose [tourism] tag is in [TOURISM_TYPES], with their
    coordinates; a node without [name] tag is named [Unnamed] followed by
    its type; the node counter is the number of nodes read. *)
Theorem attractions_of_recognized_tourism (file : list entity) :
  tourist_attractions (extract file)
  = omap attraction_kept (nodes_of file)
  /\ node_count (extract file) = Z.of_nat (length (nodes_of file))
  /\ (forall a, a ∈ tourist_attractions (extract file) ->
        att_type a ∈ TOURISM_TYPES
        /\ exists n, Node n ∈ file /\ att_id a = n_id n
             /\ att_lat a = n_lat n /\ att_lon a = n_lon n
             /\ n_tags n !! "tourism" = Some (att_type a)
             /\ att_name a
                = default (String.append "Unnamed " (att_type a))
                          (n_tags n !! "name")).
Proof.
  assert (Ha : tourist_attractions (extract file)
               = omap attraction_kept (nodes_of file))
    by apply (attractions_apply_file init file).
  split; [exact Ha|]. split.
  - change (node_count (extract file))
      with (node_count (apply_file init file)).
    rewrite node_count_apply_file. reflexivity.
  - intros a Hin. rewrite Ha in Hin.
    apply list_elem_of_omap in Hin as (n & Hn & Hk).
    unfold nodes_of in Hn. apply list_elem_of_omap in Hn as (e & He & Hen).
    destruct e as [n'|w]; [|discriminate Hen]. injection Hen as ->.
    unfold attraction_kept in Hk.
    destruct (n_tags n !! "tourism") as [t|] eqn:Et; [|discriminate Hk].
    destruct (decide (t ∈ TOURISM_TYPES)) as [Hin|]; [|discriminate Hk].
    injection Hk as <-. cbn. split; [exact Hin|].
    exists n. repeat split; assumption.
Qed.

(** X3. Before and after reclamation, the coordinates kept for an
    identifier are those of the last node of the file with that
    identifier; after reclamation only for the identifiers in the node
    list of a way kept. *)
Theorem node_coords_last_wins (file : list entity) (k : Z) :
  node_coords (apply_file init file) !! k = last_coords k (nodes_of file)
  /\ ((exists t, t ∈ ways (extract file) /\ k ∈ node_ids t) ->
      node_coords (extract file) !! k = last_coords k (nodes_of file))
  /\ (~ (exists t, t ∈ ways (extract file) /\ k ∈ node_ids t) ->
      node_coords (extract file) !! k = None).
Proof.
  assert (H : node_coords (apply_file init file) !! k
              = last_coords k (nodes_of file)).
  { rewrite node_coords_apply_file.
    destruct (last_coords k (nodes_of file)); [reflexivity|].
    apply lookup_empty. }
  split; [exact H|].
  assert (Hx : node_coords (extract file) !! k
               = if decide (k ∈ road_node_ids (apply_file init file))
                 then node_coords (apply_file init file) !! k else None)
    by apply reclaim_lookup.
  rewrite Hx, H. clear Hx.
  pose proof (needed_exact_apply_file file init needed_exact_init k) as Hn.
  destruct (decide (k ∈ road_node_ids (apply_file init file))) as [Hk|Hk].
  - split; [reflexivity|]. intros He. exfalso. apply He, Hn, Hk.
  - split; [|reflexivity]. intros He. exfalso. apply Hk, Hn, He.
Qed.

(** X4. What the handler extracts does not depend on how nodes and ways
    are interleaved in the file: two files with the same nodes in the same
    order and the same ways in the same order give the same handler. *)
Theorem extraction_ignores_interleaving (file1 file2 : list entity) :
  nodes_of file1 = nodes_of file2 -> ways_of file1 = ways_of file2 ->
  apply_file init file1 = apply_file init file2
  /\ extract file1 = extract file2.
Proof.
  intros Hn Hw.
  assert (H : apply_file init file1 = apply_file init file2).
  { apply handler_eq.
    - apply map_eq. intros k. rewrite !node_coords_apply_file, Hn.
      reflexivity.
    - rewrite !ways_apply_file, Hw. reflexivity.
    - rewrite !attractions_apply_file, Hn. reflexivity.
    - apply set_eq. intros k. rewrite !road_node_ids_apply_file, Hw.
      reflexivity.
    - rewrite !node_count_apply_file, Hn. reflexivity. }
  split; [exact H|]. unfold extract. rewrite H. reflexivity.
Qed.

(** ** Integers as floats *)







Lemma collect_ext {A B : Type} (f g : A -> result (list B)) l :
  (forall x, x ∈ l -> f x = g x) -> collect f l = collect g l.
Proof.
  induction l as [|x l IH]; intros H; [reflexivity|].
  simpl. rewrite (H x) by left.
  rewrite IH by (intros y Hy; apply H; right; exact Hy). reflexivity.
Qed.

Lemma collect_Raise {A B : Type} (f : A -> result (list B)) l e :
  collect f l = Raise e -> exists x, x ∈ l /\ f x = Raise e.
Proof.
  induction l as [|x l IH]; intros H; [discriminate H|].
  simpl in H. destruct (f x) as [ys|e'] eqn:Ex.
  - cbn in H. destruct (collect f l) as [zs|e''] eqn:El; [discriminate H|].
    cbn in H. injection H as ->.
    destruct (IH eq_refl) as (y & Hy & Hf). exists y. split; [right|]; auto.
  - cbn in H. injection H as ->. exists x. split; [left|exact Ex].
Qed.

(** ** Reclamation *)

Lemma reclaim_twice h : reclaim (reclaim h) = reclaim h.
Proof.
  apply handler_eq; try reflexivity.
  apply map_eq. intros k. rewrite !reclaim_lookup.
  change (road_node_ids (reclaim h)) with (road_node_ids h).
  destruct (decide (k ∈ road_node_ids h)); reflexivity.
Qed.

(** X5. Reclamation only removes entries: what it keeps is part of the
    map before, so the number it reports as freed is not negative; it keeps
    no more entries than there are needed identifiers; and a second
    reclamation changes nothing. *)
Theorem reclaim_only_removes (h : OSMHandler) :
  node_coords (reclaim h) ⊆ node_coords h
  /\ (size (node_coords (reclaim h)) <= size (node_coords h))%nat
  /\ (size (node_coords (reclaim h)) <= size (road_node_ids h))%nat
  /\ reclaim (reclaim h) = reclaim h.
Proof.
  assert (Hsub : node_coords (reclaim h) ⊆ node_coords h)
    by apply map_filter_subseteq.
  split; [exact Hsub|]. split; [apply map_subseteq_size, Hsub|]. split.
  - rewrite <- size_dom. apply subseteq_size.
    intros k Hk. apply elem_of_dom in Hk as [v Hv].
    rewrite reclaim_lookup in Hv.
    destruct (decide (k ∈ road_node_ids h)); [assumption|discriminate Hv].
  - apply reclaim_twice.
Qed.

Lemma pair_segment_coords_ext rt coords coords' w v i :
  (forall k, k ∈ node_ids w -> coords' !! k = coords !! k) ->
  pair_segment rt coords' w v i = pair_segment rt coords w v i.
Proof.
  intros H. unfold pair_segment, item.
  destruct (node_ids w !! i) as [a|] eqn:Ea; [|reflexivity].
  destruct (node_ids w !! (i + 1)%nat) as [b|] eqn:Eb; [|reflexivity].
  cbn [mbind result_bind].
  rewrite (H a) by (eapply list_elem_of_lookup_2; exact Ea).
  rewrite (H b) by (eapply list_elem_of_lookup_2; exact Eb).
  reflexivity.
Qed.

(** X6. Reclamation does not change what segment synthesis produces: the
    segments, or the exception, are those the full coordinate map would
    give, and so is the [COPY] sent. *)
Theorem reclaim_invisible_to_segments (rt : runtime)
    (server_accepts : cursor -> copy_command -> bool)
    (file : list entity) (cur : cursor) :
  road_segments rt (extract file) = road_segments rt (apply_file init file)
  /\ create_road_segments rt server_accepts (extract file) cur
     = create_road_segments rt server_accepts (apply_file init file) cur.
Proof.
  assert (H : road_segments rt (extract file)
              = road_segments rt (apply_file init file)).
  { unfold road_segments.
    change (ways (extract file)) with (ways (apply_file init file)).
    apply collect_ext. intros w Hw. unfold way_segments.
    destruct (resolve_speed (highway w) (maxspeed_str w)) as [v|e];
      [|reflexivity].
    cbn [mbind result_bind]. apply collect_ext. intros i _.
    apply pair_segment_coords_ext. intros k Hk.
    unfold extract. rewrite reclaim_lookup.
    destruct (decide _) as [|Hn]; [reflexivity|]. exfalso. apply Hn.
    apply (needed_exact_apply_file file init needed_exact_init). eauto. }
  split; [exact H|]. unfold create_road_segments. rewrite H. reflexivity.
Qed.

(** ** Exceptions of segment synthesis *)

Lemma float_of_str_raises s e : float_of_str s = Raise e -> e = ValueError.
Proof.
  unfold float_of_str.
  destruct (match strip s with
            | String "+" u => (false, u)
            | String "-" u => (true, u)
            | _ => (false, strip s)
            end) as [neg u].
  destruct (_ || _); [discriminate|].
  destruct (String.eqb _ _); [discriminate|].
  destruct (decimal_literal neg u); [discriminate|]. congruence.
Qed.

Lemma parse_maxspeed_raises s e :
  parse_maxspeed s = Raise e ->
  e = IndexError \/ e = ValueError \/ e = OverflowError.
Proof.
  unfold parse_maxspeed.
  destruct (item0 _) as [token|e0] eqn:Et.
  - cbn [mbind result_bind].
    destruct (float_of_str token) as [x|e1] eqn:Ex.
    + cbn [mbind result_bind]. destruct x; cbn; intros [= <-]; auto.
    + cbn [mbind result_bind]. intros [= <-].
      right. left. eapply float_of_str_raises, Ex.
  - cbn [mbind result_bind]. intros [= <-].
    destruct (split _); [|discriminate Et]. injection Et as <-. auto.
Qed.

Lemma resolve_speed_raises hw s e :
  resolve_speed hw s = Raise e ->
  e = OverflowError /\ parse_maxspeed s = Raise OverflowError.
Proof.
  unfold resolve_speed. destruct s as [|c s]; [discriminate|].
  destruct (parse_maxspeed (String c s)) as [v|e0] eqn:Ep; [discriminate|].
  destruct (parse_maxspeed_raises _ _ Ep) as [-> | [-> | ->]];
    [discriminate..|]. intros [= <-]. auto.
Qed.

Lemma float_of_int_raises n e : float_of_int n = Raise e -> e = OverflowError.
Proof.
  unfold float_of_int. destruct (float_of_Z n); try discriminate. congruence.
Qed.

Lemma pair_segment_raises rt coords w v i e :
  (i + 1 < length (node_ids w))%nat ->
  pair_segment rt coords w v i = Raise e ->
  e = ZeroDivisionError \/ e = OverflowError.
Proof.
  intros Hi. unfold pair_segment, item.
  assert (is_Some (node_ids w !! i)) as [a Ha]
    by (apply lookup_lt_is_Some_2; lia).
  assert (is_Some (node_ids w !! (i + 1)%nat)) as [b Hb]
    by (apply lookup_lt_is_Some_2; lia).
  rewrite Ha, Hb.
  cbn [mbind result_bind].
  destruct (coords !! a) as [[lat1 lon1]|]; [|discriminate].
  destruct (coords !! b) as [[lat2 lon2]|]; [|discriminate].
  unfold truediv_int.
  destruct (float_of_int v) as [d|e0] eqn:Ed.
  - cbn [mbind result_bind]. destruct (is_zero d).
    + cbn. intros [= <-]. auto.
    + cbn [mbind result_bind]. rewrite mul_int_3600. discriminate.
  - cbn [mbind result_bind]. intros [= <-].
    right. eapply float_of_int_raises, Ed.
Qed.

Lemma road_segments_raises rt h e :
  road_segments rt h = Raise e ->
  e = ZeroDivisionError \/ e = OverflowError.
Proof.
  unfold road_segments. intros Hr.
  apply collect_Raise in Hr as (w & _ & Hw). unfold way_segments in Hw.
  destruct (resolve_speed (highway w) (maxspeed_str w)) as [v|e0] eqn:Ev.
  - cbn [mbind result_bind] in Hw.
    apply collect_Raise in Hw as (i & Hi & Hp).
    apply elem_of_seq in Hi.
    eapply pair_segment_raises; [|exact Hp]. lia.
  - cbn [mbind result_bind] in Hw. injection Hw as <-.
    right. eapply resolve_speed_raises, Ev.
Qed.


Lemma truediv_int_zero_raises x : truediv_int x 0 = Raise ZeroDivisionError.
Proof. reflexivity. Qed.






(** ** The lines of the bulk loader *)

Lemma escape_tsv_clean rt v :
  occurs tab (escape_tsv rt v) = false
  /\ occurs newline (escape_tsv rt v) = false.
Proof.
  destruct v as [|s|n|f]; [split; reflexivity| | |];
    rewrite escape_tsv_chars by discriminate;
    apply concat_map_escape_clean.
Qed.

Lemma count_char_app c s t :
  count_char c (String.append s t) = (count_char c s + count_char c t)%nat.
Proof.
  induction s as [|d s IH]; [reflexivity|].
  simpl. rewrite IH. lia.
Qed.

Lemma count_char_occurs c s : occurs c s = false -> count_char c s = 0%nat.
Proof.
  induction s as [|d s IH]; [reflexivity|].
  cbn [occurs count_char]. intros H.
  apply orb_false_iff in H as [-> H]. rewrite (IH H). reflexivity.
Qed.

Lemma split_on_field c f :
  occurs c f = false -> split_on c f = [f].
Proof.
  induction f as [|d f IH]; [reflexivity|].
  cbn [occurs split_on]. intros H.
  apply orb_false_iff in H as [-> H]. rewrite (IH H). reflexivity.
Qed.

Lemma split_on_app c f rest :
  occurs c f = false ->
  split_on c (String.append f (String c rest)) = f :: split_on c rest.
Proof.
  induction f as [|d f IH]; intros H.
  - simpl. rewrite Ascii.eqb_refl. reflexivity.
  - cbn [occurs] in H. apply orb_false_iff in H as [Hd H].
    simpl. rewrite Hd, (IH H). reflexivity.
Qed.

Lemma split_on_concat c fields :
  fields <> [] -> Forall (fun f => occurs c f = false) fields ->
  split_on c (String.concat (str1 c) fields) = fields.
Proof.
  induction fields as [|f [|g fields] IH]; intros Hne Hf; [contradiction| |].
  - simpl. apply split_on_field. inversion Hf; assumption.
  - inversion Hf as [|? ? Hf1 Hf2]; subst.
    change (String.concat (str1 c) (f :: g :: fields))
      with (String.append f
              (String c (String.concat (str1 c) (g :: fields)))).
    rewrite split_on_app by exact Hf1.
    rewrite IH by (discriminate || exact Hf2). reflexivity.
Qed.

Lemma occurs_concat c sep fields :
  occurs c sep = false -> Forall (fun f => occurs c f = false) fields ->
  occurs c (String.concat sep fields) = false.
Proof.
  intros Hs. induction fields as [|f [|g fields] IH]; intros Hf;
    [reflexivity|simpl; inversion Hf; assumption|].
  inversion Hf as [|? ? Hf1 Hf2]; subst.
  change (String.concat sep (f :: g :: fields))
    with (String.append f
            (String.append sep (String.concat sep (g :: fields)))).
  rewrite !occurs_app, Hf1, Hs, (IH Hf2). reflexivity.
Qed.

Lemma count_newline_lines rt data :
  count_char newline (String.concat "" (map (tsv_line rt) data))
  = length data.
Proof.
  assert (Hline : forall row, count_char newline (tsv_line rt row) = 1%nat).
  { intros row. unfold tsv_line. rewrite count_char_app.
    rewrite count_char_occurs; [reflexivity|].
    apply occurs_concat; [reflexivity|].
    apply Forall_forall. intros f Hf.
    apply list_elem_of_fmap in Hf as (v & -> & _).
    apply escape_tsv_clean. }
  induction data as [|row [|row' data] IH]; [reflexivity| |].
  - simpl. rewrite Hline. reflexivity.
  - change (String.concat "" (map (tsv_line rt) (row :: row' :: data)))
      with (String.append (tsv_line rt row)
              (String.append ""
                 (String.concat "" (map (tsv_line rt) (row' :: data))))).
    rewrite count_char_app.
    change (String.append "" ?x) with x.
    rewrite IH, Hline. reflexivity.
Qed.

(** X10. A line of the loader ends in its only newline, and cutting what
    is before it at the tabs gives back the escaped values of the row, one
    field for each value: no value can spill into the next field or the
    next line. *)
Theorem tsv_line_fields (rt : runtime) (row : list value) :
  row <> [] ->
  exists body,
    tsv_line rt row = String.append body (str1 newline)
    /\ occurs newline body = false
    /\ split_on tab body = map (escape_tsv rt) row
    /\ length (split_on tab body) = length row.
Proof.
  intros Hne. exists (String.concat (str1 tab) (map (escape_tsv rt) row)).
  assert (Hclean : forall c, c = tab \/ c = newline ->
            Forall (fun f => occurs c f = false) (map (escape_tsv rt) row)).
  { intros c Hc. apply Forall_forall. intros f Hf.
    apply list_elem_of_fmap in Hf as (v & -> & _).
    destruct Hc as [-> | ->]; apply escape_tsv_clean. }
  assert (Hs : split_on tab (String.concat (str1 tab) (map (escape_tsv rt) row))
               = map (escape_tsv rt) row).
  { apply split_on_concat; [destruct row; [contradiction|discriminate]|].
    apply Hclean. auto. }
  split; [reflexivity|]. split; [|split].
  - apply occurs_concat; [reflexivity|]. apply Hclean. auto.
  - exact Hs.
  - rewrite Hs. apply length_map.
Qed.

(** X11. When [copy_to_table] returns, the number it returns is the number
    of lines of the [COPY] it sent: the buffer holds one newline for each
    record. *)
Theorem copy_to_table_lines (rt : runtime)
    (server_accepts : cursor -> copy_command -> bool)
    (cur cur' : cursor) (table : string) (columns : list string)
    (data : list (list value)) (n : Z) :
  data <> [] ->
  copy_to_table rt server_accepts cur table columns data = Ok (n, cur') ->
  exists cmd,
    cur' = cur ++ [cmd]
    /\ copy_table cmd = table /\ copy_columns cmd = columns
    /\ Z.of_nat (count_char newline (copy_data cmd)) = n.
Proof.
  intros Hne H. destruct data as [|row data]; [contradiction|].
  unfold copy_to_table, copy_from in H.
  destruct (server_accepts _ _); [|discriminate H].
  cbn [mbind result_bind] in H. injection H as <- <-.
  eexists. split; [reflexivity|]. cbn [copy_table copy_columns copy_data].
  split; [reflexivity|]. split; [reflexivity|].
  exact (f_equal Z.of_nat (count_newline_lines rt (row :: data))).
Qed.

Lemma escape_char_plain c :
  Ascii.eqb tab c = false -> Ascii.eqb newline c = false ->
  escape_char c = if Ascii.eqb backslash c then "\\" else str1 c.
Proof. intros Ht Hn. unfold escape_char. rewrite Ht, Hn. reflexivity. Qed.

Lemma concat_map_escape_inj s t :
  occurs tab s = false -> occurs newline s = false ->
  occurs tab t = false -> occurs newline t = false ->
  concat_map escape_char s = concat_map escape_char t -> s = t.
Proof.
  revert t. induction s as [|c s IH]; intros [|d t] Hts Hns Htt Hnt H.
  - reflexivity.
  - exfalso. cbn [concat_map] in H. cbn [occurs] in Htt, Hnt.
    apply orb_false_iff in Htt as [Htd _].
    apply orb_false_iff in Hnt as [Hnd _].
    rewrite (escape_char_plain d Htd Hnd) in H.
    destruct (Ascii.eqb backslash d); discriminate H.
  - exfalso. cbn [concat_map] in H. cbn [occurs] in Hts, Hns.
    apply orb_false_iff in Hts as [Htc _].
    apply orb_false_iff in Hns as [Hnc _].
    rewrite (escape_char_plain c Htc Hnc) in H.
    destruct (Ascii.eqb backslash c); discriminate H.
  - cbn [concat_map] in H. cbn [occurs] in Hts, Hns, Htt, Hnt.
    apply orb_false_iff in Hts as [Htc Hts].
    apply orb_false_iff in Hns as [Hnc Hns].
    apply orb_false_iff in Htt as [Htd Htt].
    apply orb_false_iff in Hnt as [Hnd Hnt].
    rewrite (escape_char_plain c Htc Hnc), (escape_char_plain d Htd Hnd) in H.
    destruct (Ascii.eqb backslash c) eqn:Ec,
             (Ascii.eqb backslash d) eqn:Ed; simpl in H.
    + apply Ascii.eqb_eq in Ec, Ed. subst c d.
      injection H as H. f_equal. apply IH; assumption.
    + injection H as Hd _. subst d. discriminate Ed.
    + injection H as Hc _. subst c. discriminate Ec.
    + injection H as -> H. f_equal. apply IH; assumption.
Qed.

Lemma concat_map_escape_blank s :
  concat_map escape_char (subst_char newline " " (subst_char tab " " s))
  = concat_map escape_char s.
Proof.
  induction s as [|c s IH]; [reflexivity|].
  cbn [subst_char]. destruct (Ascii.eqb tab c) eqn:Et.
  - apply Ascii.eqb_eq in Et. subst c.
    change (String.append " " ?x) with (String space x).
    change (subst_char newline " " (String space ?x))
      with (String space (subst_char newline " " x)).
    cbn [concat_map]. rewrite IH. reflexivity.
  - cbn [subst_char]. destruct (Ascii.eqb newline c) eqn:En.
    + apply Ascii.eqb_eq in En. subst c.
      change (String.append " " ?x) with (String space x).
      cbn [concat_map]. rewrite IH. reflexivity.
    + cbn [concat_map]. rewrite IH. reflexivity.
Qed.

(** X12. On strings without tab and newline [escape_tsv] is injective: the
    escaped form determines the string.  A tab or a newline is lost: the
    escaped form is the one of the string with a space in its place. *)
Theorem escape_tsv_injective (rt : runtime) (s t : string) :
  (occurs tab s = false -> occurs newline s = false ->
   occurs tab t = false -> occurs newline t = false ->
   escape_tsv rt (VStr s) = escape_tsv rt (VStr t) -> s = t)
  /\ escape_tsv rt (VStr (subst_char newline " " (subst_char tab " " s)))
     = escape_tsv rt (VStr s).
Proof.
  split.
  - intros Hts Hns Htt Hnt.
    rewrite !escape_tsv_chars by discriminate. cbn [py_str].
    apply concat_map_escape_inj; assumption.
  - rewrite !escape_tsv_chars by discriminate. cbn [py_str].
    apply concat_map_escape_blank.
Qed.

(** ** The summary rows of the aggregator *)



Lemma summary_rows_Ok tas cs rows :
  summary_rows tas cs = Ok rows ->
  Forall2
    (fun c r =>
       r.1 = city_id c /\ count r.2 = count_assigned tas c
       /\ is_zero (float_of_Z (population c)) = false
       /\ per_capita r.2
          = fmul (fdiv (float_of_Z (count_assigned tas c))
                       (float_of_Z (population c)))
                 (float_of_Z 10000))
    cs rows.
Proof.
  revert rows. induction cs as [|c cs IH]; intros rows H; simpl in H.
  - injection H as <-. constructor.
  - apply bind_Ok_inv in H as (r & Hr & H).
    apply bind_Ok_inv in H as (rs & Hrs & [= <-]).
    constructor; [|apply IH, Hrs].
    unfold summary_row, float8_div in Hr.
    destruct (is_zero (float_of_Z (population c))) eqn:Ez;
      [discriminate Hr|].
    cbn [mbind result_bind] in Hr. injection Hr as <-. auto.
Qed.



Lemma total_count_nil cs : total_count [] cs = 0.
Proof.
  unfold total_count. induction cs as [|c cs IH]; [reflexivity|].
  cbn [map fold_right]. rewrite IH. reflexivity.
Qed.

Lemma total_count_cons ta tas cs :
  total_count (ta :: tas) cs
  = total_count [ta] cs + total_count tas cs.
Proof.
  unfold total_count. induction cs as [|c cs IH]; [reflexivity|].
  cbn [map fold_right]. rewrite IH. unfold count_assigned.
  rewrite !filter_cons, filter_nil.
  destruct (decide (nearest_city_id ta = Some (city_id c)));
    cbn [length]; lia.
Qed.

Lemma total_count_none ta cs :
  (forall c, c ∈ cs -> nearest_city_id ta <> Some (city_id c)) ->
  total_count [ta] cs = 0.
Proof.
  unfold total_count. induction cs as [|c cs IH]; intros H; [reflexivity|].
  cbn [map fold_right]. rewrite IH by (intros c' Hc'; apply H; right; auto).
  unfold count_assigned. rewrite filter_cons, filter_nil.
  rewrite decide_False by (apply H; left). reflexivity.
Qed.

Lemma total_count_one ta cs :
  NoDup (map city_id cs) ->
  (exists c, c ∈ cs /\ nearest_city_id ta = Some (city_id c)) ->
  total_count [ta] cs = 1.
Proof.
  induction cs as [|c cs IH]; intros Hnd (c0 & Hc0 & E0);
    [inversion Hc0|].
  cbn [map] in Hnd. apply NoDup_cons in Hnd as [Hc Hnd].
  change (total_count [ta] (c :: cs))
    with (count_assigned [ta] c + total_count [ta] cs).
  unfold count_assigned at 1. rewrite filter_cons, filter_nil.
  destruct (decide (nearest_city_id ta = Some (city_id c))) as [E|E].
  - rewrite total_count_none; [reflexivity|].
    intros c' Hc' E'. apply Hc. rewrite E in E'. injection E' as ->.
    apply list_elem_of_fmap. eauto.
  - apply elem_of_cons in Hc0 as [->|Hc0]; [contradiction|].
    rewrite IH by eauto. reflexivity.
Qed.

Lemma total_count_assigned tas cs :
  NoDup (map city_id cs) ->
  Forall (fun ta => exists c, c ∈ cs
                      /\ nearest_city_id ta = Some (city_id c)) tas ->
  total_count tas cs = Z.of_nat (length tas).
Proof.
  intros Hnd. induction tas as [|ta tas IH]; intros Hf.
  - apply total_count_nil.
  - inversion Hf as [|? ? Hta Htas]; subst.
    rewrite total_count_cons, (IH Htas), (total_count_one ta cs Hnd Hta).
    cbn [length]. lia.
Qed.

Lemma update_nearest_assigned rt cs tas :
  cs <> [] ->
  Forall (fun ta => exists c, c ∈ cs
                      /\ nearest_city_id ta = Some (city_id c))
         (update_nearest rt cs tas).
Proof.
  intros Hne. unfold update_nearest. apply Forall_forall. intros ta' Hta'.
  apply list_elem_of_fmap in Hta' as (ta & -> & _). cbn.
  pose proof (nearest_city_least rt cs ta) as H.
  destruct (nearest_city rt cs ta) as [id|]; [|contradiction].
  destruct H as (c & Hc & <- & _). eauto.
Qed.

(** X14. After a run that succeeds on a database with at least one city,
    the cities having distinct identifiers, every point of interest is
    counted for exactly one city: the counts of the summary rows of the
    cities add up to the number of points of interest. *)
Theorem assign_counts_partition (rt : runtime) (db db' : database) :
  cities db <> [] -> NoDup (map city_id (cities db)) ->
  assign_tourist_attractions_to_cities rt db = (Ok tt, db') ->
  total_count (attractions db') (cities db')
  = Z.of_nat (length (attractions db))
  /\ length (attractions db') = length (attractions db)
  /\ Forall (fun ta => exists c, c ∈ cities db
                         /\ nearest_city_id ta = Some (city_id c))
            (attractions db').
Proof.
  intros Hne Hnd H. unfold assign_tourist_attractions_to_cities in H.
  destruct (summary_rows _ _) as [rows|e]; [|discriminate H].
  injection H as <-. cbn [cities attractions].
  pose proof (update_nearest_assigned rt (cities db) (attractions db) Hne)
    as Ha.
  split; [|split; [|exact Ha]].
  - rewrite (total_count_assigned _ _ Hnd Ha).
    unfold update_nearest. rewrite length_map. reflexivity.
  - unfold update_nearest. apply length_map.
Qed.

Lemma fold_upsert_lookup rows (m : gmap Z count_row) k :
  NoDup (map fst rows) ->
  fold_left upsert rows m !! k
  = match list_find (fun r => r.1 = k) rows with
    | Some (_, r) => Some r.2
    | None => m !! k
    end.
Proof.
  revert m. induction rows as [|[k' v'] rows IH]; intros m Hnd;
    [reflexivity|].
  cbn [map fst] in Hnd. apply NoDup_cons in Hnd as [Hk' Hnd].
  cbn [fold_left]. rewrite (IH _ Hnd). cbn [list_find].
  unfold upsert at 1. cbn [fst snd].
  destruct (decide (k' = k)) as [->|Hne].
  - destruct (list_find (fun r => r.1 = k) rows) as [[i r]|] eqn:E.
    + exfalso. apply list_find_Some in E as (Hi & Hr & _).
      apply Hk'. apply list_elem_of_fmap. exists r.
      split; [symmetry; exact Hr|eapply list_elem_of_lookup_2, Hi].
    + cbn. apply lookup_insert_eq.
  - destruct (list_find (fun r => r.1 = k) rows) as [[i r]|]; cbn.
    + reflexivity.
    + apply lookup_insert_ne. exact Hne.
Qed.

(** X15. After a run that succeeds, the cities having distinct
    identifiers, the summary row of every city holds the number of points
    of interest assigned to it and that number divided by the population
    times 10000, whatever row the city had before; the rows of other
    identifiers are left as they were. *)
Theorem assign_overwrites_summary (rt : runtime) (db db' : database) :
  NoDup (map city_id (cities db)) ->
  assign_tourist_attractions_to_cities rt db = (Ok tt, db') ->
  (forall c, c ∈ cities db ->
     tourist_attractions_count db' !! city_id c
     = Some {| count := count_assigned (attractions db') c;
               per_capita :=
                 fmul (fdiv (float_of_Z (count_assigned (attractions db') c))
                            (float_of_Z (population c)))
                      (float_of_Z 10000) |})
  /\ (forall k, k ∉ map city_id (cities db) ->
        tourist_attractions_count db' !! k
        = tourist_attractions_count db !! k).
Proof.
  intros Hnd H. unfold assign_tourist_attractions_to_cities in H.
  destruct (summary_rows _ _) as [rows|e] eqn:E; [|discriminate H].
  injection H as <-. cbn [attractions tourist_attractions_count].
  apply summary_rows_Ok in E.
  set (tas := update_nearest rt (cities db) (attractions db)) in *.
  assert (Hkeys : map fst rows = map city_id (cities db)).
  { clear Hnd. induction E as [|c r cs rs (Hr & _) _ IH]; [reflexivity|].
    cbn [map]. rewrite Hr, IH. reflexivity. }
  split.
  - intros c Hc. rewrite fold_upsert_lookup by (rewrite Hkeys; exact Hnd).
    destruct (list_find (fun r => r.1 = city_id c) rows) as [[i r]|] eqn:Ef.
    + apply list_find_Some in Ef as (Hi & Hr & _).
      destruct (Forall2_lookup_r _ _ _ _ _ E Hi) as (c' & Hc' & Hr1 & Hcnt
                                                     & _ & Hpc).
      assert (c' = c) as ->.
      { apply list_elem_of_lookup in Hc as [j Hj].
        assert (i = j) as ->; [|congruence].
        eapply NoDup_lookup; [exact Hnd| |].
        - rewrite list_lookup_fmap, Hc'. cbn. rewrite <- Hr1, Hr.
          reflexivity.
        - rewrite list_lookup_fmap, Hj. reflexivity. }
      destruct r as [k [n p]]. cbn in *. subst. reflexivity.
    + exfalso. apply list_find_None in Ef.
      apply list_elem_of_lookup in Hc as [j Hj].
      destruct (Forall2_lookup_l _ _ _ _ _ E Hj) as (r & Hr & Hr1 & _).
      rewrite Forall_forall in Ef. apply (Ef r); [|exact Hr1].
      eapply list_elem_of_lookup_2, Hr.
  - intros k Hk. rewrite fold_upsert_lookup by (rewrite Hkeys; exact Hnd).
    destruct (list_find (fun r => r.1 = k) rows) as [[i r]|] eqn:Ef;
      [|reflexivity].
    exfalso. apply list_find_Some in Ef as (Hi & Hr & _).
    apply Hk. rewrite <- Hkeys. apply list_elem_of_fmap.
    exists r. split; [symmetry; exact Hr|eapply list_elem_of_lookup_2, Hi].
Qed.

(** ** The lines of the ways and the fields of the segments *)

Lemma pretty_N_char_plain c y :
  c = tab \/ c = newline -> Ascii.eqb c (pretty_N_char y) = false.
Proof.
  intros Hc. unfold pretty_N_char.
  repeat case_match; destruct Hc; subst; reflexivity.
Qed.

Lemma occurs_pretty_N_go c x s :
  c = tab \/ c = newline -> occurs c (pretty_N_go x s) = occurs c s.
Proof.
  intros Hc. revert s. induction (N.lt_wf_0 x) as [x _ IH]; intros s.
  destruct (decide (x = 0)%N) as [->|Hx].
  - rewrite pretty_N_go_0. reflexivity.
  - rewrite pretty_N_go_step by lia.
    rewrite IH by (apply N.div_lt; lia).
    cbn [occurs]. rewrite (pretty_N_char_plain c _ Hc). reflexivity.
Qed.

Lemma occurs_pretty_Z c (z : Z) :
  c = tab \/ c = newline -> occurs c (pretty z) = false.
Proof.
  intros Hc.
  assert (HN : forall n : N, occurs c (pretty n) = false).
  { intros n. unfold pretty, pretty_N. destruct (decide (n = 0)%N).
    - destruct Hc; subst; reflexivity.
    - rewrite occurs_pretty_N_go by exact Hc. reflexivity. }
  destruct z as [|p|p].
  - destruct Hc; subst; reflexivity.
  - apply (HN (Npos p)).
  - change (pretty (Zneg p)) with (String.append "-" (pretty (Npos p))).
    rewrite occurs_app, (HN (Npos p)).
    destruct Hc; subst; reflexivity.
Qed.

Lemma array_str_plain c (ids : list Z) :
  c = tab \/ c = newline ->
  occurs c (String.append "{"
              (String.append (String.concat "," (map pretty ids)) "}"))
  = false.
Proof.
  intros Hc. rewrite !occurs_app.
  rewrite (occurs_concat c "," (map pretty ids)).
  - destruct Hc; subst; reflexivity.
  - destruct Hc; subst; reflexivity.
  - apply Forall_forall. intros f Hf.
    apply list_elem_of_fmap in Hf as (z & -> & _).
    apply occurs_pretty_Z, Hc.
Qed.

Lemma way_line_counts w :
  count_char tab (way_line w) = 2%nat
  /\ count_char newline (way_line w) = 1%nat.
Proof.
  unfold way_line. cbv zeta.
  split.
  - rewrite count_char_app, (count_char_occurs tab (pretty (way_id w)))
      by (apply occurs_pretty_Z; auto).
    cbn [count_char]. rewrite Ascii.eqb_refl.
    rewrite count_char_app, (count_char_occurs tab _ (array_str_plain tab
      (node_ids w) (or_introl eq_refl))).
    reflexivity.
  - rewrite count_char_app, (count_char_occurs newline (pretty (way_id w)))
      by (apply occurs_pretty_Z; auto).
    cbn [count_char].
    rewrite count_char_app, (count_char_occurs newline _ (array_str_plain
      newline (node_ids w) (or_intror eq_refl))).
    reflexivity.
Qed.

(** X20. The line written for a way holds exactly two tabs and one
    newline, whatever its identifier and node list: three fields on one
    line; the buffer of ways has as many lines as there are ways kept. *)
Theorem way_lines_well_formed (ws : list way_tuple) :
  Forall (fun w => count_char tab (way_line w) = 2%nat
                   /\ count_char newline (way_line w) = 1%nat) ws
  /\ count_char newline (String.concat "" (map way_line ws)) = length ws.
Proof.
  split; [apply Forall_forall; intros w _; apply way_line_counts|].
  induction ws as [|w [|w' ws] IH]; [reflexivity| |].
  - cbn [map String.concat length]. apply way_line_counts.
  - change (String.concat "" (map way_line (w :: w' :: ws)))
      with (String.append (way_line w)
              (String.append ""
                 (String.concat "" (map way_line (w' :: ws))))).
    rewrite count_char_app. change (String.append "" ?x) with x.
    rewrite IH, (proj2 (way_line_counts w)). reflexivity.
Qed.

(** X21. Every segment written joins two nodes that follow each other in
    the node list of its way, and carries the identifier, the highway
    type and the one-way flag of that way and its name escaped, a name
    without tab and newline. *)
Theorem segments_follow_ways (rt : runtime) (h : OSMHandler)
    (segs : list segment) (s : segment) :
  road_segments rt h = Ok segs -> s ∈ segs ->
  exists w i,
    w ∈ ways h
    /\ node_ids w !! i = Some (seg_start_node s)
    /\ node_ids w !! (i + 1)%nat = Some (seg_end_node s)
    /\ seg_way_id s = way_id w
    /\ seg_highway_type s = highway w
    /\ seg_oneway s = oneway w
    /\ seg_name s = escape_tsv rt (VStr (name w))
    /\ occurs tab (seg_name s) = false
    /\ occurs newline (seg_name s) = false.
Proof.
  unfold road_segments. intros Hsegs Hs.
  destruct (collect_Ok_elem _ _ _ _ Hsegs Hs) as (w & zs & Hw & Hws & Hz).
  unfold way_segments in Hws.
  apply bind_Ok_inv in Hws as (v & Hv & Hws).
  destruct (collect_Ok_elem _ _ _ _ Hws Hz) as (i & ys & _ & Hi & Hy).
  exists w, i. split; [exact Hw|].
  unfold pair_segment, item in Hi.
  destruct (node_ids w !! i) as [a|] eqn:Ea; [|discriminate Hi].
  destruct (node_ids w !! (i + 1)%nat) as [b|] eqn:Eb; [|discriminate Hi].
  cbn [mbind result_bind] in Hi.
  destruct (node_coords h !! a) as [[lat1 lon1]|];
    [|injection Hi as <-; inversion Hy].
  destruct (node_coords h !! b) as [[lat2 lon2]|];
    [|injection Hi as <-; inversion Hy].
  apply bind_Ok_inv in Hi as (q & _ & Hi).
  apply bind_Ok_inv in Hi as (t & _ & Hi).
  injection Hi as <-. apply list_elem_of_singleton in Hy. subst s.
  split; [reflexivity|]. split; [reflexivity|]. split; [reflexivity|].
  split; [reflexivity|]. split; [reflexivity|]. split; [reflexivity|].
  split; [exact (proj1 (escape_tsv_clean rt (VStr (name w))))
         |exact (proj2 (escape_tsv_clean rt (VStr (name w))))].
Qed.

(** ** The import *)

Lemma copy_to_table_cases rt acc cur table columns data :
  copy_to_table rt acc cur table columns data
  = Ok (Z.of_nat (length data), cur ++ table_copy rt table columns data)
  \/ copy_to_table rt acc cur table columns data = Raise DatabaseError.
Proof.
  destruct data as [|row data].
  - left. cbn. rewrite app_nil_r. reflexivity.
  - unfold copy_to_table, copy_from, table_copy, copy_cmd.
    destruct (acc _ _); [left|right]; reflexivity.
Qed.

Lemma create_road_segments_cases rt acc h cur :
  (exists segs, road_segments rt h = Ok segs
     /\ (create_road_segments rt acc h cur
         = Ok (cur ++ [segments_copy rt segs])
         \/ create_road_segments rt acc h cur = Raise DatabaseError))
  \/ (exists e, road_segments rt h = Raise e
        /\ create_road_segments rt acc h cur = Raise e).
Proof.
  unfold create_road_segments.
  destruct (road_segments rt h) as [segs|e]; [left|right; eauto].
  exists segs. split; [reflexivity|]. cbn [mbind result_bind].
  unfold copy_from, segments_copy, copy_cmd.
  destruct (acc _ _); [left|right]; reflexivity.
Qed.

Lemma import_to_postgres_cases rt acc exec h conn :
  let T := truncate (working conn) in
  let F := first_copies rt h in
  import_to_postgres rt acc exec h conn
  = (Raise DatabaseError, settled (committed conn))
  \/ import_to_postgres rt acc exec h conn
     = (Raise DatabaseError, settled T)
  \/ (exists e,
        import_to_postgres rt acc exec h conn = (Raise e, settled (T ++ F))
        /\ (road_segments rt h = Raise e
            \/ e = DatabaseError /\ exists segs, road_segments rt h = Ok segs))
  \/ (exists segs,
        road_segments rt h = Ok segs
        /\ import_to_postgres rt acc exec h conn
           = (Ok tt, settled (T ++ F ++ [segments_copy rt segs]))).
Proof.
  intros T F. unfold import_to_postgres, import_steps, execute.
  destruct (exec (working conn) _); [|left; reflexivity].
  cbn [commit working committed].
  destruct (exec (truncate (working conn)) _); [|right; left; reflexivity].
  unfold on_cursor. cbn [working committed].
  destruct (copy_to_table_cases rt acc (truncate (working conn)) "osm_nodes"
              ["osm_id"; "lat"; "lon"; "tags"] (road_nodes h)) as [E|E];
    rewrite E; clear E; [|right; left; reflexivity].
  cbn [mbind result_bind fst snd working committed].
  unfold copy_from.
  destruct (acc _ _); [|right; left; reflexivity].
  cbn [mbind result_bind fst snd working committed].
  match goal with
  | |- context [copy_to_table rt acc ?c ?t ?cols ?d] =>
      destruct (copy_to_table_cases rt acc c t cols d) as [E|E];
        rewrite E; clear E; [|right; left; reflexivity]
  end.
  cbn [mbind result_bind fst snd commit working committed].
  match goal with
  | |- context [create_road_segments rt acc h ?c] =>
      assert (HF : c = T ++ F)
        by (unfold F, first_copies, copy_cmd; rewrite <- !app_assoc;
            reflexivity);
      rewrite HF; clear HF
  end.
  destruct (create_road_segments_cases rt acc h (T ++ F))
    as [(segs & Hs & [E|E])|(e & He & E)]; rewrite E; clear E.
  - right. right. right. exists segs. split; [exact Hs|].
    cbn [mbind result_bind fst snd commit working committed].
    rewrite <- !app_assoc. reflexivity.
  - right. right. left. exists DatabaseError. split; [reflexivity|].
    right. eauto.
  - right. right. left. exists e. cbn [mbind result_bind]. split; [|auto].
    destruct (road_segments_raises rt h e He) as [-> | ->]; reflexivity.
Qed.

Lemma table_copy_tables rt table columns data :
  table ∈ import_tables ->
  Forall (fun cmd => copy_table cmd ∈ import_tables)
         (table_copy rt table columns data).
Proof.
  intros Ht. destruct data; [constructor|].
  unfold table_copy. apply Forall_cons. split; [exact Ht|constructor].
Qed.

Lemma first_copies_tables rt h :
  Forall (fun cmd => copy_table cmd ∈ import_tables) (first_copies rt h).
Proof.
  unfold first_copies. rewrite !Forall_app. split; [|split].
  - apply table_copy_tables. unfold import_tables. set_solver.
  - apply Forall_cons. split; [|constructor].
    cbn. unfold import_tables. set_solver.
  - apply table_copy_tables. unfold import_tables. set_solver.
Qed.

Lemma filter_all {A : Type} (P : A -> Prop) `{forall x, Decision (P x)}
    (l : list A) :
  Forall P l -> filter P l = l.
Proof.
  induction 1 as [|x l Hx _ IH]; [reflexivity|].
  rewrite filter_cons, decide_True by exact Hx. rewrite IH. reflexivity.
Qed.

Lemma filter_truncate cur :
  filter (fun cmd => copy_table cmd ∈ import_tables) (truncate cur) = [].
Proof.
  unfold truncate. induction cur as [|cmd cur IH]; [reflexivity|].
  rewrite filter_cons. destruct (decide (copy_table cmd ∉ import_tables)).
  - rewrite filter_cons, decide_False by assumption. exact IH.
  - exact IH.
Qed.

(** X16. When the import succeeds, nothing is left pending and the four
    tables of the import hold the rows of this handler and no other: the
    rows they held before are gone, and the commands are, in order, nodes,
    ways, attractions, segments. *)
Theorem import_replaces_tables (rt : runtime)
    (server_accepts : cursor -> copy_command -> bool)
    (execute_accepts : cursor -> string -> bool)
    (h : OSMHandler) (conn conn' : connection) :
  import_to_postgres rt server_accepts execute_accepts h conn
  = (Ok tt, conn') ->
  exists segs,
    road_segments rt h = Ok segs
    /\ conn' = settled (truncate (working conn) ++ first_copies rt h
                        ++ [segments_copy rt segs])
    /\ filter (fun cmd => copy_table cmd ∈ import_tables) (committed conn')
       = first_copies rt h ++ [segments_copy rt segs].
Proof.
  intros H.
  destruct (import_to_postgres_cases rt server_accepts execute_accepts h conn)
    as [E|[E|[(e & E & _)|(segs & Hs & E)]]];
    rewrite E in H; try discriminate H.
  injection H as <-. exists segs. split; [exact Hs|]. split; [reflexivity|].
  cbn [committed settled].
  assert (Hall : Forall (fun cmd => copy_table cmd ∈ import_tables)
                        (first_copies rt h ++ [segments_copy rt segs])).
  { apply Forall_app. split; [apply first_copies_tables|].
    apply Forall_cons. split; [|constructor].
    cbn. unfold import_tables. set_solver. }
  rewrite filter_app, filter_truncate. cbn [app].
  apply filter_all, Hall.
Qed.


Lemma copy_to_table_accepted rt acc cur table columns data :
  (forall c x, acc c x = true) ->
  copy_to_table rt acc cur table columns data
  = Ok (Z.of_nat (length data), cur ++ table_copy rt table columns data).
Proof.
  intros Hacc. destruct data as [|row data].
  - cbn. rewrite app_nil_r. reflexivity.
  - unfold copy_to_table, copy_from, table_copy, copy_cmd.
    rewrite Hacc. reflexivity.
Qed.

(** X18. When segment synthesis raises, the import never succeeds; on a
    server that accepts every statement the exception of the synthesis
    leaves the import after nodes, ways and attractions are committed:
    the tables are cleared and loaded with these three, and there is no
    segment. *)
Theorem import_partial_on_synthesis_failure (rt : runtime)
    (server_accepts : cursor -> copy_command -> bool)
    (execute_accepts : cursor -> string -> bool)
    (h : OSMHandler) (conn : connection) (e : exn) :
  road_segments rt h = Raise e ->
  (forall conn',
     import_to_postgres rt server_accepts execute_accepts h conn
     <> (Ok tt, conn'))
  /\ ((forall c s, execute_accepts c s = true) ->
      (forall c x, server_accepts c x = true) ->
      import_to_postgres rt server_accepts execute_accepts h conn
      = (Raise e, settled (truncate (working conn) ++ first_copies rt h))).
Proof.
  intros He. split.
  - intros conn' H.
    destruct (import_to_postgres_cases rt server_accepts execute_accepts
                h conn)
      as [E|[E|[(e' & E & _)|(segs & Hs & E)]]];
      rewrite E in H; try discriminate H.
    rewrite He in Hs. discriminate Hs.
  - intros Hexec Hacc.
    unfold import_to_postgres, import_steps, execute.
    rewrite Hexec. cbn [commit working committed]. rewrite Hexec.
    unfold on_cursor. cbn [working committed].
    rewrite copy_to_table_accepted by exact Hacc.
    cbn [mbind result_bind fst snd working committed].
    unfold copy_from. rewrite Hacc.
    cbn [mbind result_bind fst snd working committed].
    rewrite copy_to_table_accepted by exact Hacc.
    cbn [mbind result_bind fst snd commit working committed].
    unfold create_road_segments. rewrite He. cbn [mbind result_bind].
    destruct (road_segments_raises rt h e He) as [-> | ->];
      unfold settled, first_copies, copy_cmd; rewrite <- !app_assoc;
      reflexivity.
Qed.

Lemma length_road_nodes h :
  length (road_nodes h)
  = length (filter (fun k => is_Some (node_coords h !! k))
                   (elements (road_node_ids h))).
Proof.
  unfold road_nodes. induction (elements (road_node_ids h)) as [|k l IH];
    [reflexivity|].
  cbn [omap list_omap]. rewrite filter_cons.
  destruct (node_coords h !! k) as [[lat lon]|] eqn:E.
  - rewrite decide_True by eauto. cbn [length]. f_equal. exact IH.
  - rewrite decide_False by (intros [? [=]]). exact IH.
Qed.

(** X19. The import writes one row of [osm_nodes] for each coordinate
    entry that reclamation retains, whether it is given the handler
    before or after reclamation: the number of road nodes imported is the
    number of coordinates retained. *)
Theorem road_nodes_count (h : OSMHandler) :
  length (road_nodes h) = size (node_coords (reclaim h))
  /\ length (road_nodes (reclaim h)) = size (node_coords (reclaim h)).
Proof.
  assert (H : forall h', length (road_nodes h')
                         = size (node_coords (reclaim h'))).
  { intros h'. rewrite length_road_nodes, <- size_dom.
    unfold size at 1, set_size. cbn [compose].
    apply Permutation_length, NoDup_Permutation.
    - apply NoDup_filter, NoDup_elements.
    - apply NoDup_elements.
    - intros k. rewrite list_elem_of_filter, !elem_of_elements, elem_of_dom.
      rewrite reclaim_lookup.
      destruct (decide (k ∈ road_node_ids h')) as [Hk|Hk].
      + tauto.
      + split; [tauto|]. intros [? [=]]. }
  split; [apply H|]. rewrite H, reclaim_twice. reflexivity.
Qed.

(** ** The further properties on the example data *)

Lemma ways_of_recognized_highways_witness :
  highway (example_way "55 mph") ∈ HIGHWAY_TYPES
  /\ exists v, DEFAULT_SPEEDS !! "motorway" = Some v /\ 0 < v.
Proof.
  destruct (ways_of_recognized_highways (example_file "55 mph")) as [Hw H].
  destruct (H (example_way "55 mph")) as (Hhw & Hv & _).
  - rewrite Hw. vm_compute. left.
  - split; [exact Hhw|exact Hv].
Defined.

Lemma extraction_ignores_interleaving_witness :
  apply_file init (example_file "") = apply_file init reordered_file
  /\ extract (example_file "") = extract reordered_file.
Proof.
  apply extraction_ignores_interleaving; reflexivity.
Defined.



Lemma tsv_line_fields_witness :
  exists body,
    tsv_line example_runtime [VInt 7; VStr (String tab "x"); VNone]
    = String.append body (str1 newline)
    /\ occurs newline body = false
    /\ split_on tab body = ["7"; " x"; "\N"]
    /\ length (split_on tab body) = 3%nat.
Proof.
  apply (tsv_line_fields example_runtime
           [VInt 7; VStr (String tab "x"); VNone]).
  discriminate.
Defined.

Lemma copy_to_table_lines_witness :
  exists cmd,
    [copy_cmd "osm_nodes" ["osm_id"; "tags"]
       (String.concat ""
          (map (tsv_line example_runtime)
               [[VInt 1001; VStr "{}"]; [VInt 1002; VNone]]))]
    = [] ++ [cmd]
    /\ copy_table cmd = "osm_nodes" /\ copy_columns cmd = ["osm_id"; "tags"]
    /\ Z.of_nat (count_char newline (copy_data cmd)) = 2.
Proof.
  apply (copy_to_table_lines example_runtime accept_all [] _ "osm_nodes"
           ["osm_id"; "tags"] [[VInt 1001; VStr "{}"]; [VInt 1002; VNone]] 2).
  - discriminate.
  - reflexivity.
Defined.

Lemma escape_tsv_injective_witness :
  escape_tsv example_runtime (VStr "a\b") <> escape_tsv example_runtime (VStr "a\\b")
  /\ escape_tsv example_runtime (VStr (String tab "x"))
     = escape_tsv example_runtime (VStr " x").
Proof.
  destruct (escape_tsv_injective example_runtime "a\b" "a\\b") as [Hi _].
  destruct (escape_tsv_injective example_runtime (String tab "x") "") as [_ Hb].
  split.
  - intros E. specialize (Hi eq_refl eq_refl eq_refl eq_refl E).
    discriminate Hi.
  - rewrite <- Hb. reflexivity.
Defined.

Lemma attractions_of_recognized_tourism_witness :
  map att_name (tourist_attractions (extract museum_file))
  = ["Unnamed museum"]
  /\ node_count (extract museum_file) = 1.
Proof.
  destruct (attractions_of_recognized_tourism museum_file) as (Ha & Hn & _).
  split; [rewrite Ha; vm_compute; reflexivity|exact Hn].
Defined.

Lemma node_coords_last_wins_witness :
  node_coords (extract (example_file "")) !! 1002
  = last_coords 1002 (nodes_of (example_file "")).
Proof.
  destruct (node_coords_last_wins (example_file "") 1002) as (_ & H & _).
  apply H. exists (example_way "").
  assert (ways (extract (example_file "")) = [example_way ""]) as ->
    by (vm_compute; reflexivity).
  split; [left|right; left].
Defined.



Lemma example_ids_distinct : NoDup (map city_id (cities example_database)).
Proof.
  cbn. apply NoDup_cons. split; [|apply NoDup_singleton].
  intros H. apply list_elem_of_singleton in H. discriminate H.
Defined.

Lemma assign_counts_partition_witness :
  total_count
    (attractions
       (assign_tourist_attractions_to_cities
          example_runtime example_database).2)
    (cities
       (assign_tourist_attractions_to_cities
          example_runtime example_database).2)
  = 1.
Proof.
  destruct (assign_counts_partition example_runtime example_database
              (assign_tourist_attractions_to_cities
                 example_runtime example_database).2) as [H _].
  - discriminate.
  - exact example_ids_distinct.
  - vm_compute. reflexivity.
  - exact H.
Defined.

Lemma assign_overwrites_summary_witness :
  (count <$>
     tourist_attractions_count
       (assign_tourist_attractions_to_cities
          example_runtime example_database).2 !! 2) = Some 1
  /\ tourist_attractions_count
       (assign_tourist_attractions_to_cities
          example_runtime example_database).2 !! 9 = None.
Proof.
  destruct (assign_overwrites_summary example_runtime example_database
              (assign_tourist_attractions_to_cities
                 example_runtime example_database).2) as [Hc Ho].
  - exact example_ids_distinct.
  - vm_compute. reflexivity.
  - split.
    + assert (H2 : {| city_id := 2;
                      city_lat := float_of_decimal false 3352 (-2);
                      city_lon := float_of_decimal true 86802 (-3);
                      population := 210000 |} ∈ cities example_database)
        by (right; left).
      specialize (Hc _ H2). cbn [city_id] in Hc. rewrite Hc. reflexivity.
    + rewrite Ho; [reflexivity|].
      cbn. intros H. apply elem_of_cons in H as [H|H]; [discriminate H|].
      apply list_elem_of_singleton in H. discriminate H.
Defined.

Lemma import_replaces_tables_witness :
  exists segs,
    road_segments example_runtime (extract (example_file "")) = Ok segs
    /\ length segs = 2%nat
    /\ map copy_table
         (committed
            (import_to_postgres example_runtime accept_all execute_all
               (extract (example_file "")) (settled [])).2)
       = ["osm_nodes"; "osm_ways"; "road_segments"].
Proof.
  destruct (import_replaces_tables example_runtime accept_all execute_all
              (extract (example_file "")) (settled [])
              (import_to_postgres example_runtime accept_all execute_all
                 (extract (example_file "")) (settled [])).2)
    as (segs & Hs & _).
  - vm_compute. reflexivity.
  - exists segs. split; [exact Hs|]. split.
    + vm_compute in Hs. injection Hs as <-. reflexivity.
    + vm_compute. reflexivity.
Defined.


Lemma import_partial_on_synthesis_failure_witness :
  map copy_table
    (committed
       (import_to_postgres example_runtime accept_all execute_all
          (extract (example_file "0")) (settled [])).2)
  = ["osm_nodes"; "osm_ways"]
  /\ (import_to_postgres example_runtime accept_all execute_all
        (extract (example_file "0")) (settled [])).1
     = Raise ZeroDivisionError.
Proof.
  destruct (import_partial_on_synthesis_failure example_runtime accept_all
              execute_all (extract (example_file "0")) (settled [])
              ZeroDivisionError) as [_ H].
  - vm_compute. reflexivity.
  - rewrite H by reflexivity. split; vm_compute; reflexivity.
Defined.

Lemma segments_follow_ways_witness :
  exists w i,
    w ∈ ways (extract (example_file ""))
    /\ node_ids w !! i = Some 1001
    /\ node_ids w !! (i + 1)%nat = Some 1002.
Proof.
  destruct (road_segments example_runtime (extract (example_file "")))
    as [segs|e] eqn:E; [|vm_compute in E; discriminate E].
  assert (Hs : exists s, s ∈ segs /\ seg_start_node s = 1001
                         /\ seg_end_node s = 1002).
  { vm_compute in E. injection E as <-.
    eexists. split; [left|]. split; reflexivity. }
  destruct Hs as (s & Hs & H1 & H2).
  destruct (segments_follow_ways _ _ _ s E Hs)
    as (w & i & Hw & Ha & Hb & _).
  exists w, i. rewrite <- H1, <- H2. auto.
Defined.
